(** * The apps metrics collector of pkg/apps/metrics/prometheus/metrics.go

    A shallow embedding of [appsCollector.Describe] and
    [appsCollector.Collect], and the properties of one scrape.

    - Go values: [int64] is a [Z] with its wrap-around written out, the
      [float64] values that occur (counters stepped from zero, converted
      [int64]s) are all integral and are carried as the integer they
      denote, with IEEE-754 rounding to 53 significant bits written out.
    - Effects: sending on the metric channel, logging and reading the wall
      clock go through a small monad [Go] over a [World]; a run either
      returns normally or panics.
    - The helpers of pkg/apps/util and the fields read of a replication
      controller are an interface ([Deployments]); [strings.ToLower] and
      the readings of the wall clock are parameters. *)

From Stdlib Require Import ZArith Lia Bool List Ascii String.
From stdpp Require Import gmap strings list fin_maps pretty.

Local Open Scope Z_scope.

(** ** Go scalars *)

Module GoNum.

Definition int64_min : Z := - 2 ^ 63.
Definition int64_max : Z := 2 ^ 63 - 1.

Definition in_int64 (z : Z) : Prop := int64_min <= z <= int64_max.

(** Two's complement reduction of an integer to [int64]. *)
Definition wrap64 (z : Z) : Z := (z + 2 ^ 63) mod 2 ^ 64 - 2 ^ 63.

(** [a - b] on [int64]. *)
Definition sub64 (a b : Z) : Z := wrap64 (a - b).

(** The [float64] nearest to an integer (ties to even), as the integer
    it denotes.  Integers of magnitude below [2^53] are exact. *)
Definition round53 (z : Z) : Z :=
  let a := Z.abs z in
  if a <? 2 ^ 53 then z
  else
    let e := Z.log2 a - 52 in
    let q := Z.shiftr a e in
    let r := Z.land a (Z.ones e) in
    let half := Z.shiftl 1 (e - 1) in
    let q' := if (half <? r) || ((r =? half) && Z.odd q) then q + 1 else q in
    Z.sgn z * Z.shiftl q' e.

(** [float64(i)] for [i : int64]. *)
Definition float64_of_int64 (i : Z) : Z := round53 i.

(** [x++] on a [float64] holding an integer. *)
Definition float64_incr (x : Z) : Z := round53 (x + 1).

End GoNum.

(** ** Go strings *)

Module GoStr.

(** [len(s)] *)
Definition len (s : string) : Z := Z.of_nat (String.length s).

(** [strings.Join(elems, sep)] *)
Fixpoint Join (elems : list string) (sep : string) : string :=
  match elems with
  | [] => ""
  | [s] => s
  | s :: rest => s +:+ sep +:+ Join rest sep
  end.

(** [strings.Split(s, sep)] for a separator of one byte: the pieces
    between the occurrences of [sep], always at least one. *)
Fixpoint Split1 (s : string) (sep : Ascii.ascii) : list string :=
  match s with
  | EmptyString => [""]
  | String c rest =>
      if Ascii.eqb c sep then "" :: Split1 rest sep
      else match Split1 rest sep with
           | [] => [String c ""]
           | p :: ps => String c p :: ps
           end
  end.

(** [fmt.Sprintf("%d", i)] *)
Definition Sprintf_d (i : Z) : string := pretty i.

(** Lower-casing of the ASCII letters, the byte-wise path of
    [strings.ToLower]. *)
Definition lower_byte (c : Ascii.ascii) : Ascii.ascii :=
  let n := Ascii.nat_of_ascii c in
  if ((65 <=? n) && (n <=? 90))%nat then Ascii.ascii_of_nat (n + 32) else c.

Fixpoint ascii_ToLower (s : string) : string :=
  match s with
  | EmptyString => EmptyString
  | String c rest => String (lower_byte c) (ascii_ToLower rest)
  end.

End GoStr.

(** ** The metrics client library, as far as the collector uses it *)

Module Prom.

Inductive ValueType := CounterValue | GaugeValue | UntypedValue.

Record Desc := mkDesc {
  fqName : string;
  help : string;
  variableLabels : list string;
  constLabels : list (string * string)
}.

(** [prometheus.NewDesc(fqName, help, variableLabels, constLabels)] *)
Definition NewDesc (fq hlp : string) (vars : list string)
    (consts : list (string * string)) : Desc :=
  mkDesc fq hlp vars consts.

Record Metric := mkMetric {
  desc : Desc;
  valueType : ValueType;
  value : Z;
  labelValues : list string
}.

(** [prometheus.NewConstMetric]: an error ([None]) when the number of
    label values differs from the descriptor's variable labels. *)
Definition NewConstMetric (d : Desc) (vt : ValueType) (v : Z)
    (lvs : list string) : option Metric :=
  if Nat.eqb (length lvs) (length (variableLabels d))
  then Some (mkMetric d vt v lvs)
  else None.

#[global] Instance ValueType_eq_dec : EqDecision ValueType.
Proof. solve_decision. Defined.
#[global] Instance Desc_eq_dec : EqDecision Desc.
Proof. solve_decision. Defined.
#[global] Instance Metric_eq_dec : EqDecision Metric.
Proof. solve_decision. Defined.

End Prom.

(** ** The world a scrape runs in *)

(** A Go [error], by its message. *)
Definition error := string.

(** A line written through [glog.V(level).Infof]. *)
Record LogLine := mkLogLine { verbosity : Z; message : string }.

Record World := mkWorld {
  sent : list Prom.Metric;     (* what went down the metric channel, oldest first *)
  logged : list LogLine;
  clockReads : nat             (* calls of time.Now() so far *)
}.

Inductive Outcome (A : Type) :=
| Returns (a : A) (w : World)
| Panics (w : World).
Arguments Returns {A} a w.
Arguments Panics {A} w.

Definition Go (A : Type) := World -> Outcome A.

Definition ret {A} (a : A) : Go A := fun w => Returns a w.

Definition bind {A B} (m : Go A) (k : A -> Go B) : Go B :=
  fun w => match m w with
           | Returns a w' => k a w'
           | Panics w' => Panics w'
           end.

Definition panic {A} : Go A := fun w => Panics w.

Declare Scope go_scope.
Delimit Scope go_scope with go.
Notation "x <- m ;; k" := (bind m (fun x => k))
  (at level 100, m at next level, right associativity) : go_scope.
Notation "m ;;; k" := (bind m (fun _ => k))
  (at level 100, right associativity) : go_scope.
Local Open Scope go_scope.

(** [ch <- m] *)
Definition send (m : Prom.Metric) : Go unit :=
  fun w => Returns tt (mkWorld (sent w ++ [m]) (logged w) (clockReads w)).

(** [glog.V(level).Infof(...)] with the formatted message. *)
Definition glog_V_Infof (level : Z) (msg : string) : Go unit :=
  fun w => Returns tt (mkWorld (sent w) (logged w ++ [mkLogLine level msg]) (clockReads w)).

(** [prometheus.MustNewConstMetric]: panics where [NewConstMetric] fails. *)
Definition MustNewConstMetric (d : Prom.Desc) (vt : Prom.ValueType) (v : Z)
    (lvs : list string) : Go Prom.Metric :=
  match Prom.NewConstMetric d vt v lvs with
  | Some m => ret m
  | None => panic
  end.

(** [for _, x := range xs { s = body x s }] *)
Fixpoint forRange {A S} (xs : list A) (body : A -> S -> Go S) (s : S) : Go S :=
  match xs with
  | [] => ret s
  | x :: rest => s' <- body x s ;; forRange rest body s'
  end.

(** ** The replication controllers and the helpers of pkg/apps/util *)

(** What [Collect] reads of a replication controller [d]: the fields
    [d.Namespace], [d.CreationTimestamp.Unix()] and
    [d.Status.ObservedGeneration], and the helpers of package [util]. *)
Class Deployments (RC : Type) := {
  Namespace : RC -> string;
  CreationTimestamp_Unix : RC -> Z;
  Status_ObservedGeneration : RC -> Z;
  DeploymentConfigNameFor : RC -> string;
  IsTerminatedDeployment : RC -> bool;
  IsDeploymentCancelled : RC -> bool;
  IsFailedDeployment : RC -> bool;
  IsCompleteDeployment : RC -> bool;
  DeploymentStatusFor : RC -> string
}.

(** [labels.Selector]; the collector only builds [labels.Everything()]. *)
Inductive Selector := Everything.

(** [kcorelisters.ReplicationControllerLister]: [List] returns the
    controllers and an error. *)
Record ReplicationControllerLister (RC : Type) := mkLister {
  List : Selector -> list RC * option error
}.
Arguments List {RC} _ _.
Arguments mkLister {RC} _.

(** ** Constants and descriptors *)

Definition completeRolloutCount : string := "complete_rollouts_total".
Definition activeRolloutDurationSeconds : string := "active_rollouts_duration_seconds".
Definition lastFailedRolloutTime : string := "last_failed_rollout_time".

Definition availablePhase : string := "available".
Definition failedPhase : string := "failed".
Definition cancelledPhase : string := "cancelled".

Definition nameToQuery (name : string) : string :=
  GoStr.Join ["openshift_apps_deploymentconfigs"; name] "_".

Definition completeRolloutCountDesc : Prom.Desc :=
  Prom.NewDesc (nameToQuery completeRolloutCount)
    "Counts total complete rollouts"
    ["phase"] [].

Definition lastFailedRolloutTimeDesc : Prom.Desc :=
  Prom.NewDesc (nameToQuery lastFailedRolloutTime)
    "Tracks the time of last failure rollout per deployment config"
    ["namespace"; "name"; "generation"] [].

Definition activeRolloutDurationSecondsDesc : Prom.Desc :=
  Prom.NewDesc (nameToQuery activeRolloutDurationSeconds)
    "Tracks the active rollout duration in seconds"
    ["namespace"; "name"; "phase"; "generation"] [].

(** ** The collector *)

Record appsCollector (RC : Type) := mkCollector {
  lister : ReplicationControllerLister RC
}.
Arguments lister {RC} _.
Arguments mkCollector {RC} _.

(** [Describe]: the descriptor channel after the two sends. *)
Definition Describe {RC} (c : appsCollector RC) (ch : list Prom.Desc) : list Prom.Desc :=
  (ch ++ [completeRolloutCountDesc]) ++ [activeRolloutDurationSecondsDesc].

Record failedRollout := mkFailedRollout {
  timestamp : Z;    (* float64 *)
  generation : Z    (* int64 *)
}.

(** The variables of [Collect] that live across the loop. *)
Record Locals := mkLocals {
  available : Z;    (* float64 *)
  failed : Z;       (* float64 *)
  cancelled : Z;    (* float64 *)
  latestFailedRollouts : gmap string failedRollout
}.

Definition initLocals : Locals := mkLocals 0 0 0 ∅.

Definition incr_available (s : Locals) : Locals :=
  mkLocals (GoNum.float64_incr (available s)) (failed s) (cancelled s) (latestFailedRollouts s).
Definition incr_failed (s : Locals) : Locals :=
  mkLocals (available s) (GoNum.float64_incr (failed s)) (cancelled s) (latestFailedRollouts s).
Definition incr_cancelled (s : Locals) : Locals :=
  mkLocals (available s) (failed s) (GoNum.float64_incr (cancelled s)) (latestFailedRollouts s).
Definition set_latestFailedRollouts (m : gmap string failedRollout) (s : Locals) : Locals :=
  mkLocals (available s) (failed s) (cancelled s) m.

(** The four outcomes of the branch over one resource. *)
Inductive Termination := NotTerminated | Cancelled | Failed | Complete.

#[global] Instance Termination_eq_dec : EqDecision Termination.
Proof. solve_decision. Defined.

Section Collector.

Context {RC : Type} `{Deployments RC}.

(** [strings.ToLower] *)
Variable ToLower : string -> string.

(** The wall clock: [clock n] is what the [n]-th call of
    [time.Now().Unix()] returns. *)
Variable clock : nat -> Z.

(** [time.Now().Unix()] *)
Definition time_Now_Unix : Go Z :=
  fun w => Returns (clock (clockReads w))
                   (mkWorld (sent w) (logged w) (S (clockReads w))).

(** The key of a controller in [latestFailedRollouts]. *)
Definition rolloutKey (d : RC) (dcName : string) : string :=
  Namespace d +:+ "/" +:+ dcName.

(** Lines 104-115: track the latest failed rollout per deployment config. *)
Definition trackLatestFailed (d : RC) (dcName : string)
    (m : gmap string failedRollout) : gmap string failedRollout :=
  let shouldUpdate :=
    match m !! rolloutKey d dcName with
    | Some r => if Status_ObservedGeneration d >? generation r then true else false
    | None => false
    end in
  if shouldUpdate
  then <[ rolloutKey d dcName :=
            mkFailedRollout (GoNum.float64_of_int64 (CreationTimestamp_Unix d))
                            (Status_ObservedGeneration d) ]> m
  else m.

(** Lines 95-122: [Some s'] when the iteration ends in a [continue]
    with the locals [s'], [None] when control falls through to the
    active part. *)
Definition terminatedPart (d : RC) (dcName : string) (s : Locals) : option Locals :=
  if IsTerminatedDeployment d then
    if IsDeploymentCancelled d then Some (incr_cancelled s)
    else if IsFailedDeployment d then
      let s1 := incr_failed s in
      Some (set_latestFailedRollouts
              (trackLatestFailed d dcName (latestFailedRollouts s1)) s1)
    else if IsCompleteDeployment d then Some (incr_available s)
    else None
  else None.

(** Lines 125-128. *)
Definition phaseOf (d : RC) : string :=
  let phase := ToLower (DeploymentStatusFor d) in
  if GoStr.len phase =? 0 then "unknown" else phase.

(** Lines 124-142: the active part. *)
Definition activePart (d : RC) (dcName : string) : Go unit :=
  let phase := phaseOf d in
  now <- time_Now_Unix ;;
  let durationSeconds := GoNum.sub64 now (CreationTimestamp_Unix d) in
  m <- MustNewConstMetric activeRolloutDurationSecondsDesc Prom.CounterValue
         (GoNum.float64_of_int64 durationSeconds)
         [Namespace d; dcName; phase; GoStr.Sprintf_d (Status_ObservedGeneration d)] ;;
  send m.

(** Lines 89-143: one iteration of the loop over [result]. *)
Definition perResource (d : RC) (s : Locals) : Go Locals :=
  let dcName := DeploymentConfigNameFor d in
  if GoStr.len dcName =? 0 then ret s
  else
    match terminatedPart d dcName s with
    | Some s' => ret s'
    | None => activePart d dcName ;;; ret s
    end.

(** Element [i] of a slice; out of range panics. *)
Definition index (parts : list string) (i : nat) : Go string :=
  match nth_error parts i with
  | Some p => ret p
  | None => panic
  end.

(** Lines 146-157: one iteration of the loop over [latestFailedRollouts]. *)
Definition perFailedRollout (e : string * failedRollout) (_ : unit) : Go unit :=
  let '(dc, r) := e in
  let parts := GoStr.Split1 dc "/" in
  p0 <- index parts 0 ;;
  p1 <- index parts 1 ;;
  m <- MustNewConstMetric lastFailedRolloutTimeDesc Prom.GaugeValue
         (timestamp r)
         [p0; p1; GoStr.Sprintf_d (generation r)] ;;
  send m.

(** Lines 159-161. *)
Definition sendCounters (s : Locals) : Go unit :=
  m1 <- MustNewConstMetric completeRolloutCountDesc Prom.GaugeValue (available s) [availablePhase] ;;
  send m1 ;;;
  m2 <- MustNewConstMetric completeRolloutCountDesc Prom.GaugeValue (failed s) [failedPhase] ;;
  send m2 ;;;
  m3 <- MustNewConstMetric completeRolloutCountDesc Prom.GaugeValue (cancelled s) [cancelledPhase] ;;
  send m3.

(** [Collect].  The loop over the map visits its entries in the order
    of [map_to_list]; Go leaves that order unspecified. *)
Definition Collect (c : appsCollector RC) : Go unit :=
  let '(result, err) := List (lister c) Everything in
  match err with
  | Some e => glog_V_Infof 4 ("Collecting metrics for apps failed: " +:+ e)
  | None =>
      s <- forRange result perResource initLocals ;;
      forRange (map_to_list (latestFailedRollouts s)) perFailedRollout tt ;;;
      sendCounters s
  end.

(** *** Vocabulary of the properties *)

(** The workload name is not empty: the iteration is not skipped at
    lines 91-93. *)
Definition named (d : RC) : bool :=
  negb (GoStr.len (DeploymentConfigNameFor d) =? 0).

(** The outcome of a resource in the priority order of the branches:
    cancelled, failed, complete, else active. *)
Definition classification (d : RC) : Termination :=
  if IsTerminatedDeployment d then
    if IsDeploymentCancelled d then Cancelled
    else if IsFailedDeployment d then Failed
    else if IsCompleteDeployment d then Complete
    else NotTerminated
  else NotTerminated.

(** The iteration for [d] gets to line 124. *)
Definition reachesActive (d : RC) : bool :=
  named d && bool_decide (classification d = NotTerminated).

(** How many named resources of [l] have the outcome [t]. *)
Definition countOutcome (t : Termination) (l : list RC) : Z :=
  Z.of_nat (length (filter (fun d => named d && bool_decide (classification d = t) = true) l)).

(** The sample lines 133-142 build for [d] when the clock reads [now]. *)
Definition durationSample (d : RC) (now : Z) : Prom.Metric :=
  Prom.mkMetric activeRolloutDurationSecondsDesc Prom.CounterValue
    (GoNum.float64_of_int64 (GoNum.sub64 now (CreationTimestamp_Unix d)))
    [Namespace d; DeploymentConfigNameFor d; phaseOf d;
     GoStr.Sprintf_d (Status_ObservedGeneration d)].

(** The locals after the iteration for [d]. *)
Definition localsAfter (d : RC) (s : Locals) : Locals :=
  if GoStr.len (DeploymentConfigNameFor d) =? 0 then s
  else match terminatedPart d (DeploymentConfigNameFor d) s with
       | Some s' => s'
       | None => s
       end.

(** The duration samples of a pass over [l] that starts with [n]
    clock readings behind it. *)
Fixpoint durationSamples (l : list RC) (n : nat) : list Prom.Metric :=
  match l with
  | [] => []
  | d :: rest =>
      if reachesActive d
      then durationSample d (clock n) :: durationSamples rest (S n)
      else durationSamples rest n
  end.

(** The locals after the pass over [l]. *)
Definition passLocals (l : list RC) (s : Locals) : Locals :=
  fold_left (fun s d => localsAfter d s) l s.

(** The world after the pass over [l]. *)
Definition passWorld (l : list RC) (w : World) : World :=
  mkWorld (sent w ++ durationSamples l (clockReads w)) (logged w)
          (clockReads w + length (filter (fun d => reachesActive d = true) l)).

(** The three samples of lines 159-161 for the locals [s]. *)
Definition counterSamples (s : Locals) : list Prom.Metric :=
  [Prom.mkMetric completeRolloutCountDesc Prom.GaugeValue (available s) [availablePhase];
   Prom.mkMetric completeRolloutCountDesc Prom.GaugeValue (failed s) [failedPhase];
   Prom.mkMetric completeRolloutCountDesc Prom.GaugeValue (cancelled s) [cancelledPhase]].

(** The counter a terminal outcome steps. *)
Definition counterOf (t : Termination) (s : Locals) : Z :=
  match t with
  | Cancelled => cancelled s
  | Failed => failed s
  | Complete => available s
  | NotTerminated => 0
  end.

(** The samples new in [w'] since [w]. *)
Definition sentSince (w w' : World) : list Prom.Metric :=
  drop (length (sent w)) (sent w').

(** The iteration for [d] gets to line 101 and its key is [key]. *)
Definition failedFor (key : string) (d : RC) : bool :=
  named d && bool_decide (classification d = Failed)
  && bool_decide (rolloutKey d (DeploymentConfigNameFor d) = key).

(** The observed generations of the failed resources of [l] under [key],
    in list order. *)
Definition failedGenerations (key : string) (l : list RC) : list Z :=
  Status_ObservedGeneration <$> filter (fun d => failedFor key d = true) l.

(** The sample lines 148-156 build for the record [r] under the key
    [dc], when the key has the two pieces it is indexed at. *)
Definition failedRolloutSample (dc : string) (r : failedRollout) : option Prom.Metric :=
  match GoStr.Split1 dc "/" with
  | p0 :: p1 :: _ =>
      Some (Prom.mkMetric lastFailedRolloutTimeDesc Prom.GaugeValue (timestamp r)
              [p0; p1; GoStr.Sprintf_d (generation r)])
  | _ => None
  end.

(** No byte of [s] is [c]. *)
Fixpoint freeOf (c : Ascii.ascii) (s : string) : bool :=
  match s with
  | EmptyString => true
  | String a rest => negb (Ascii.eqb a c) && freeOf c rest
  end.

End Collector.

(** ** The collector as the singleton of the process *)

Section Lifecycle.

Context {RC : Type} `{Deployments RC}.

Variable ToLower : string -> string.
Variable clock : nat -> Z.

(** The default registry of the metrics client, and what
    [prometheus.Register(&apps)] makes of it: the registry with the
    collector added, or an error. *)
Variable Registry : Type.
Variable Register : Registry -> option Registry.

(** The package variables [apps] (by its only field; a nil lister is
    [None]) and [registered], and the registry of the metrics client. *)
Record Globals := mkGlobals {
  apps_lister : option (ReplicationControllerLister RC);
  registered : bool;
  defaultRegistry : Registry
}.

(** The variables as the package initializes them. *)
Definition initGlobals (reg : Registry) : Globals := mkGlobals None false reg.

(** [glog.V(level).Info(msg)] *)
Definition glog_V_Info (level : Z) (msg : string) : Go unit := glog_V_Infof level msg.

(** [prometheus.MustRegister(&apps)]: panics where [Register] fails. *)
Definition MustRegister_apps (g : Globals) : Go Globals :=
  match Register (defaultRegistry g) with
  | Some reg => ret (mkGlobals (apps_lister g) (registered g) reg)
  | None => panic
  end.

(** Lines 58-65. *)
Definition IntializeMetricsCollector
    (rcLister : option (ReplicationControllerLister RC)) (g : Globals) : Go Globals :=
  let g1 := mkGlobals rcLister (registered g) (defaultRegistry g) in
  g2 <- (if negb (registered g1)
         then g' <- MustRegister_apps g1 ;;
              ret (mkGlobals (apps_lister g') true (defaultRegistry g'))
         else ret g1) ;;
  glog_V_Info 4 "apps metrics registered with prometheus" ;;;
  ret g2.

(** [(&apps).Collect(ch)], the call the registry makes on the collector
    it holds a pointer to: it reads [apps.lister] as it is at the time of
    the scrape, and the method call on a nil lister panics. *)
Definition Collect_apps (g : Globals) : Go unit :=
  match apps_lister g with
  | Some l => Collect ToLower clock (mkCollector l)
  | None => panic
  end.

(** The line [IntializeMetricsCollector] logs. *)
Definition registeredLine : LogLine :=
  mkLogLine 4 "apps metrics registered with prometheus".

End Lifecycle.

Arguments Globals RC Registry : clear implicits.
Arguments mkGlobals {RC Registry} _ _ _.
Arguments apps_lister {RC Registry} _.
Arguments registered {RC Registry} _.
Arguments defaultRegistry {RC Registry} _.
Arguments initGlobals {RC Registry} _.
Arguments MustRegister_apps {RC Registry} _ _.
Arguments IntializeMetricsCollector {RC Registry} _ _ _.
Arguments Collect_apps {RC _} _ _ {Registry} _.

(** ** A concrete resource type *)

(** Modelled from the spec: the replication controller type and the
    helpers of pkg/apps/util are not among the sources; section 3 of the
    specification gives a rollout resource a workload name, a namespace, a
    creation timestamp, an observed generation, a termination
    classification (none, cancelled, failed, complete) and a phase string. *)
Record RolloutResource := mkRollout {
  r_namespace : string;
  r_workload : string;
  r_created : Z;
  r_generation : Z;
  r_termination : Termination;
  r_phase : string
}.

#[global] Instance RolloutResource_Deployments : Deployments RolloutResource := {|
  Namespace := r_namespace;
  CreationTimestamp_Unix := r_created;
  Status_ObservedGeneration := r_generation;
  DeploymentConfigNameFor := r_workload;
  IsTerminatedDeployment r := negb (bool_decide (r_termination r = NotTerminated));
  IsDeploymentCancelled r := bool_decide (r_termination r = Cancelled);
  IsFailedDeployment r := bool_decide (r_termination r = Failed);
  IsCompleteDeployment r := bool_decide (r_termination r = Complete);
  DeploymentStatusFor := r_phase
|}.

(** A clock that advances one second per reading. *)
Definition tickingClock (start : Z) (n : nat) : Z := start + Z.of_nat n.

(** A lister over a fixed cache. *)
Definition listerOf {RC} (result : list RC) (err : option error) : ReplicationControllerLister RC :=
  mkLister (fun _ => (result, err)).

Module Samples.

Definition cancelledA : RolloutResource :=
  mkRollout "ns" "a" 100 1 Cancelled "Failed".
Definition failedB1 : RolloutResource :=
  mkRollout "ns" "b" 200 1 Failed "Failed".
Definition failedB2 : RolloutResource :=
  mkRollout "ns" "b" 300 2 Failed "Failed".
Definition completeD : RolloutResource :=
  mkRollout "ns" "d" 350 4 Complete "Complete".
Definition activeC : RolloutResource :=
  mkRollout "ns" "c" 400 3 NotTerminated "".
Definition runningE : RolloutResource :=
  mkRollout "prod" "e" 500 7 NotTerminated "Running".
Definition unnamed : RolloutResource :=
  mkRollout "ns" "" 600 1 Failed "Failed".

Definition world0 : World := mkWorld [] [] 0.

Definition lower : string -> string := GoStr.ascii_ToLower.
Definition clock0 : nat -> Z := tickingClock 1000.

(** A scrape over [result] from the empty world. *)
Definition run (result : list RolloutResource) : Outcome unit :=
  Collect lower clock0 (mkCollector (listerOf result None)) world0.

(** A registry by the names of its collectors, which refuses a name it
    already holds. *)
Definition registerApps (reg : list string) : option (list string) :=
  if bool_decide ("apps" ∈ reg) then None else Some ("apps" :: reg).

(** A registry operation that always fails. *)
Definition registerNever (reg : list string) : option (list string) := None.

Definition listerA : ReplicationControllerLister RolloutResource :=
  listerOf [cancelledA] None.
Definition listerB : ReplicationControllerLister RolloutResource :=
  listerOf [failedB1; activeC] None.

(** Locals in which the index holds a record for the workload b. *)
Definition seeded (g : Z) : Locals :=
  mkLocals 0 0 0 {[ "ns/b" := mkFailedRollout 200 g ]}.

End Samples.

(** * Properties *)

(** ** Go scalars *)

Module GoNumFacts.
Import GoNum.

Lemma wrap64_in_range z : in_int64 z -> wrap64 z = z.
Proof.
  unfold in_int64, int64_min, int64_max, wrap64. intros Hz.
  rewrite Z.mod_small; lia.
Qed.

Lemma round53_exact z : - 2 ^ 53 <= z <= 2 ^ 53 -> round53 z = z.
Proof.
  intros Hz. unfold round53.
  destruct (Z.abs z <? 2 ^ 53) eqn:Hlt; [reflexivity|].
  apply Z.ltb_ge in Hlt.
  assert (z = 2 ^ 53 \/ z = - 2 ^ 53) as [-> | ->] by lia; reflexivity.
Qed.

Lemma float64_incr_exact x : 0 <= x < 2 ^ 53 -> float64_incr x = x + 1.
Proof. intros Hx. unfold float64_incr. apply round53_exact. lia. Qed.

(** A duration that fits 53 bits comes out of the [int64] subtraction
    and of the conversion to [float64] unchanged. *)
Lemma duration_exact now created :
  - 2 ^ 53 <= now - created <= 2 ^ 53 ->
  float64_of_int64 (sub64 now created) = now - created.
Proof.
  intros Hd. unfold float64_of_int64, sub64.
  rewrite wrap64_in_range by (unfold in_int64, int64_min, int64_max; lia).
  by apply round53_exact.
Qed.

End GoNumFacts.

Section Properties.

Context {RC : Type} `{Deployments RC}.
Variable ToLower : string -> string.
Variable clock : nat -> Z.

Implicit Types (d : RC) (l result : list RC) (s : Locals) (w : World).

Local Abbreviation perResource' := (perResource ToLower clock).
Local Abbreviation Collect' := (Collect ToLower clock).
Local Abbreviation durationSample' := (durationSample ToLower).
Local Abbreviation durationSamples' := (durationSamples ToLower clock).

(** *** One iteration *)

Lemma named_len d : named d = true <-> GoStr.len (DeploymentConfigNameFor d) <> 0.
Proof.
  unfold named. rewrite negb_true_iff, Z.eqb_neq. reflexivity.
Qed.

Lemma terminatedPart_None d name s :
  terminatedPart d name s = None <-> classification d = NotTerminated.
Proof.
  unfold terminatedPart, classification.
  destruct (IsTerminatedDeployment d), (IsDeploymentCancelled d),
    (IsFailedDeployment d), (IsCompleteDeployment d); split; congruence.
Qed.

Lemma activePart_runs d w :
  activePart ToLower clock d (DeploymentConfigNameFor d) w =
  Returns tt (mkWorld (sent w ++ [durationSample' d (clock (clockReads w))])
                      (logged w) (S (clockReads w))).
Proof. reflexivity. Qed.

(** What one iteration does, in one equation: it never panics, it
    steps the locals by [localsAfter], and it sends one duration sample
    exactly when it reaches the active part. *)
Lemma perResource_runs d s w :
  perResource' d s w =
  Returns (localsAfter d s)
    (if reachesActive d
     then mkWorld (sent w ++ [durationSample' d (clock (clockReads w))])
                  (logged w) (S (clockReads w))
     else w).
Proof.
  unfold perResource, localsAfter, reachesActive, named.
  destruct (GoStr.len (DeploymentConfigNameFor d) =? 0); [reflexivity|].
  simpl negb. rewrite andb_true_l.
  destruct (terminatedPart d (DeploymentConfigNameFor d) s) as [s'|] eqn:Ht.
  - rewrite bool_decide_eq_false_2; [reflexivity|].
    intros Hc. apply (terminatedPart_None d (DeploymentConfigNameFor d) s) in Hc.
    congruence.
  - apply terminatedPart_None in Ht. rewrite bool_decide_eq_true_2 by exact Ht.
    unfold bind. rewrite activePart_runs. reflexivity.
Qed.

(** *** The pass over the resource list *)

Lemma pass_runs l : forall s w,
  forRange l perResource' s w = Returns (passLocals l s) (passWorld ToLower clock l w).
Proof.
  induction l as [|d l IH]; intros s w.
  - destruct w. unfold passWorld. simpl. rewrite app_nil_r, Nat.add_0_r. reflexivity.
  - simpl forRange. unfold bind. rewrite perResource_runs, IH.
    unfold passWorld, passLocals. simpl fold_left. simpl durationSamples.
    rewrite filter_cons.
    destruct (reachesActive d) eqn:Hact.
    + rewrite decide_True by reflexivity. simpl.
      rewrite <- app_assoc. simpl. f_equal. f_equal. lia.
    + rewrite decide_False by discriminate. reflexivity.
Qed.

(** *** The latest-failure index *)

Lemma trackLatestFailed_absent d name (m : gmap string failedRollout) :
  m !! rolloutKey d name = None -> trackLatestFailed d name m = m.
Proof. intros Hm. unfold trackLatestFailed. rewrite Hm. reflexivity. Qed.

Lemma trackLatestFailed_newer d name (m : gmap string failedRollout) r :
  m !! rolloutKey d name = Some r ->
  generation r < Status_ObservedGeneration d ->
  trackLatestFailed d name m =
  <[ rolloutKey d name :=
       mkFailedRollout (GoNum.float64_of_int64 (CreationTimestamp_Unix d))
                       (Status_ObservedGeneration d) ]> m.
Proof.
  intros Hm Hg. unfold trackLatestFailed. rewrite Hm.
  replace (Status_ObservedGeneration d >? generation r) with true; [reflexivity|].
  symmetry. apply Z.gtb_lt. exact Hg.
Qed.

Lemma terminatedPart_failed d name s :
  IsTerminatedDeployment d = true -> IsDeploymentCancelled d = false ->
  IsFailedDeployment d = true ->
  terminatedPart d name s =
  Some (set_latestFailedRollouts
          (trackLatestFailed d name (latestFailedRollouts s)) (incr_failed s)).
Proof. intros Ht Hc Hf. unfold terminatedPart. rewrite Ht, Hc, Hf. reflexivity. Qed.

Lemma perResource_failed d s w :
  named d = true -> IsTerminatedDeployment d = true ->
  IsDeploymentCancelled d = false -> IsFailedDeployment d = true ->
  perResource' d s w =
  Returns (set_latestFailedRollouts
             (trackLatestFailed d (DeploymentConfigNameFor d) (latestFailedRollouts s))
             (incr_failed s)) w.
Proof.
  intros Hn Ht Hc Hf. unfold perResource.
  apply named_len, Z.eqb_neq in Hn. rewrite Hn.
  rewrite (terminatedPart_failed d _ s Ht Hc Hf). reflexivity.
Qed.

Lemma localsAfter_index_empty d s :
  latestFailedRollouts s = ∅ -> latestFailedRollouts (localsAfter d s) = ∅.
Proof.
  intros He. unfold localsAfter, terminatedPart.
  destruct (GoStr.len (DeploymentConfigNameFor d) =? 0); [exact He|].
  destruct (IsTerminatedDeployment d); [|exact He].
  destruct (IsDeploymentCancelled d); [exact He|].
  destruct (IsFailedDeployment d).
  - simpl. rewrite He. apply trackLatestFailed_absent, lookup_empty.
  - destruct (IsCompleteDeployment d); exact He.
Qed.

Lemma passLocals_index_empty l : forall s,
  latestFailedRollouts s = ∅ -> latestFailedRollouts (passLocals l s) = ∅.
Proof.
  induction l as [|d l IH]; intros s He; [exact He|].
  apply IH, localsAfter_index_empty, He.
Qed.

(** *** The whole scrape *)

Lemma sendCounters_runs s w :
  sendCounters s w =
  Returns tt (mkWorld (sent w ++ counterSamples s) (logged w) (clockReads w)).
Proof.
  unfold sendCounters, bind, MustNewConstMetric, send, counterSamples. simpl.
  rewrite <- !app_assoc. reflexivity.
Qed.

(** A scrape whose fetch succeeds returns normally, having sent the
    duration samples of the pass and then the three counters. *)
Lemma Collect_runs (c : appsCollector RC) result w :
  List (lister c) Everything = (result, None) ->
  Collect' c w =
  Returns tt
    (mkWorld (sent w ++ durationSamples' result (clockReads w)
                     ++ counterSamples (passLocals result initLocals))
             (logged w)
             (clockReads w + length (filter (fun d => reachesActive d = true) result))).
Proof.
  intros Hl. unfold Collect. rewrite Hl. unfold bind at 1.
  rewrite pass_runs.
  rewrite (passLocals_index_empty result initLocals eq_refl).
  rewrite map_to_list_empty. simpl forRange. unfold bind, ret.
  rewrite sendCounters_runs. unfold passWorld. simpl.
  rewrite <- app_assoc. reflexivity.
Qed.

Lemma sentSince_app w (new : list Prom.Metric) lg n :
  sentSince w (mkWorld (sent w ++ new) lg n) = new.
Proof. unfold sentSince. simpl. apply drop_app_length. Qed.

Lemma durationSamples_desc l : forall n,
  Forall (fun m => Prom.desc m = activeRolloutDurationSecondsDesc) (durationSamples' l n).
Proof.
  induction l as [|d l IH]; intros n; simpl; [constructor|].
  destruct (reachesActive d); [constructor; [reflexivity|]|]; apply IH.
Qed.

Lemma filter_keeps_all {A} (P : A -> Prop) `{forall x, Decision (P x)} (xs : list A) :
  Forall P xs -> filter P xs = xs.
Proof.
  induction 1 as [|x xs Hx _ IH]; [reflexivity|].
  rewrite filter_cons_True by exact Hx. by rewrite IH.
Qed.

Lemma filter_drops_all {A} (P : A -> Prop) `{forall x, Decision (P x)} (xs : list A) :
  Forall (fun x => ~ P x) xs -> filter P xs = [].
Proof.
  induction 1 as [|x xs Hx _ IH]; [reflexivity|].
  rewrite filter_cons_False by exact Hx. exact IH.
Qed.

Lemma descs_distinct :
  completeRolloutCountDesc <> lastFailedRolloutTimeDesc /\
  activeRolloutDurationSecondsDesc <> lastFailedRolloutTimeDesc /\
  completeRolloutCountDesc <> activeRolloutDurationSecondsDesc.
Proof. repeat split; intros Heq; apply (f_equal Prom.variableLabels) in Heq; discriminate Heq. Qed.

Lemma forRange_app {A S} (xs ys : list A) (body : A -> S -> Go S) : forall (s : S) w,
  forRange (xs ++ ys) body s w = bind (forRange xs body s) (forRange ys body) w.
Proof.
  induction xs as [|x xs IH]; intros s w; [reflexivity|].
  simpl. unfold bind. destruct (body x s w) as [s1 w1|w1]; [|reflexivity].
  rewrite IH. reflexivity.
Qed.

Lemma failed_not_active d :
  IsTerminatedDeployment d = true -> IsDeploymentCancelled d = false ->
  IsFailedDeployment d = true -> classification d = Failed.
Proof. intros Ht Hc Hf. unfold classification. rewrite Ht, Hc, Hf. reflexivity. Qed.

(** *** The claims about the latest-failure index *)

(** C1: a failed resource whose key has no entry in the latest-failure
    index yet leaves the index as it was: the iteration only steps the
    failed counter and sends nothing, the key is still absent afterwards,
    and a scrape over that single resource sends the three counter
    samples and no last_failed_rollout_time sample. *)
Theorem first_failure_seeds_no_entry d s w :
  named d = true ->
  IsTerminatedDeployment d = true ->
  IsDeploymentCancelled d = false ->
  IsFailedDeployment d = true ->
  latestFailedRollouts s !! rolloutKey d (DeploymentConfigNameFor d) = None ->
  (exists s',
      perResource' d s w = Returns s' w /\
      latestFailedRollouts s' = latestFailedRollouts s /\
      latestFailedRollouts s' !! rolloutKey d (DeploymentConfigNameFor d) = None /\
      failed s' = GoNum.float64_incr (failed s)) /\
  (forall c : appsCollector RC,
      List (lister c) Everything = ([d], None) ->
      exists w',
        Collect' c w = Returns tt w' /\
        sentSince w w' = counterSamples (mkLocals 0 1 0 ∅) /\
        Forall (fun m => Prom.desc m <> lastFailedRolloutTimeDesc) (sentSince w w')).
Proof.
  intros Hn Ht Hc Hf Habs. split.
  - eexists. split; [apply (perResource_failed d s w Hn Ht Hc Hf)|].
    simpl. rewrite (trackLatestFailed_absent _ _ _ Habs). auto.
  - intros c Hl. eexists. split; [apply (Collect_runs c [d] w Hl)|].
    rewrite sentSince_app.
    assert (Hact : reachesActive d = false).
    { unfold reachesActive. rewrite (failed_not_active d Ht Hc Hf), Hn. reflexivity. }
    assert (Hloc : passLocals [d] initLocals = mkLocals 0 1 0 ∅).
    { unfold passLocals. simpl. unfold localsAfter.
      apply named_len, Z.eqb_neq in Hn. rewrite Hn.
      rewrite (terminatedPart_failed d _ _ Ht Hc Hf). reflexivity. }
    simpl durationSamples. rewrite Hact, Hloc. simpl. split; [reflexivity|].
    destruct descs_distinct as [Hd _]. repeat constructor; exact Hd.
Qed.

(** C2: every iteration of the loop keeps an empty latest-failure index
    empty, so for every resource list the pass returns with the index
    empty, and no scrape, whatever the lister answers, sends a
    last_failed_rollout_time sample. *)
Theorem latest_failure_index_stays_empty result w :
  (forall d s w0,
      latestFailedRollouts s = ∅ ->
      exists s1 w1, perResource' d s w0 = Returns s1 w1 /\ latestFailedRollouts s1 = ∅) /\
  (exists s' w',
      forRange result perResource' initLocals w = Returns s' w' /\
      latestFailedRollouts s' = ∅) /\
  (forall c : appsCollector RC,
      exists w',
        Collect' c w = Returns tt w' /\
        Forall (fun m => Prom.desc m <> lastFailedRolloutTimeDesc) (sentSince w w')).
Proof.
  split; [|split].
  - intros d s w0 He. do 2 eexists. split; [apply perResource_runs|].
    apply localsAfter_index_empty, He.
  - do 2 eexists. split; [apply pass_runs|].
    apply passLocals_index_empty. reflexivity.
  - intros c. destruct (List (lister c) Everything) as [res [e|]] eqn:Hl.
    + eexists. split; [unfold Collect; rewrite Hl; reflexivity|].
      unfold sentSince. simpl. rewrite drop_all. constructor.
    + eexists. split; [apply (Collect_runs c res w Hl)|].
      rewrite sentSince_app. destruct descs_distinct as (Hc & Ha & _).
      apply Forall_app. split.
      * eapply Forall_impl; [apply durationSamples_desc|].
        intros m Hm. simpl in Hm. rewrite Hm. exact Ha.
      * repeat constructor; exact Hc.
Qed.

(** C6: when the index holds a record for the key of a failed resource
    and the resource's observed generation is greater than the record's,
    the iteration replaces the record by the resource's creation time and
    generation; the old record is gone. *)
Theorem newer_failure_replaces_entry d s w r :
  named d = true ->
  IsTerminatedDeployment d = true ->
  IsDeploymentCancelled d = false ->
  IsFailedDeployment d = true ->
  latestFailedRollouts s !! rolloutKey d (DeploymentConfigNameFor d) = Some r ->
  generation r < Status_ObservedGeneration d ->
  exists s',
    perResource' d s w = Returns s' w /\
    latestFailedRollouts s' !! rolloutKey d (DeploymentConfigNameFor d) =
      Some (mkFailedRollout (GoNum.float64_of_int64 (CreationTimestamp_Unix d))
                            (Status_ObservedGeneration d)) /\
    latestFailedRollouts s' !! rolloutKey d (DeploymentConfigNameFor d) <> Some r.
Proof.
  intros Hn Ht Hc Hf Hr Hg.
  eexists. split; [apply (perResource_failed d s w Hn Ht Hc Hf)|].
  simpl. rewrite (trackLatestFailed_newer _ _ _ r Hr Hg), lookup_insert_eq.
  split; [reflexivity|].
  intros Heq. injection Heq as Heq. rewrite <- Heq in Hg. simpl in Hg. lia.
Qed.

(** *** The claims about errors and skipped resources *)

(** C5: when the lister returns an error, the scrape returns normally,
    has written one line at verbosity 4 and has sent no sample. *)
Theorem fetch_failure_sends_nothing (c : appsCollector RC) w result e :
  List (lister c) Everything = (result, Some e) ->
  exists w',
    Collect' c w = Returns tt w' /\
    sent w' = sent w /\
    sentSince w w' = [] /\
    logged w' = logged w ++ [mkLogLine 4 ("Collecting metrics for apps failed: " +:+ e)].
Proof.
  intros Hl. eexists. split; [unfold Collect; rewrite Hl; reflexivity|].
  unfold sentSince. simpl. rewrite drop_all. auto.
Qed.

(** C8: a resource whose workload name is empty changes nothing: its
    iteration returns the locals (counters and index) and the world
    (channel, log, clock) it was given, and a scrape over a list that
    contains it runs exactly as the scrape over the list without it. *)
Theorem empty_name_is_skipped d :
  DeploymentConfigNameFor d = "" ->
  (forall s w, perResource' d s w = Returns s w) /\
  (forall l1 l2 s w,
      forRange (l1 ++ d :: l2) perResource' s w = forRange (l1 ++ l2) perResource' s w) /\
  (forall (c c' : appsCollector RC) l1 l2 w,
      List (lister c) Everything = (l1 ++ d :: l2, None) ->
      List (lister c') Everything = (l1 ++ l2, None) ->
      Collect' c w = Collect' c' w).
Proof.
  intros Hn.
  assert (Hstep : forall s w, perResource' d s w = Returns s w).
  { intros s w. unfold perResource. rewrite Hn. reflexivity. }
  assert (Hpass : forall l1 l2 s w,
             forRange (l1 ++ d :: l2) perResource' s w =
             forRange (l1 ++ l2) perResource' s w).
  { intros l1 l2 s w. rewrite !forRange_app. unfold bind.
    destruct (forRange l1 perResource' s w) as [s1 w1|w1]; [|reflexivity].
    simpl. unfold bind. rewrite Hstep. reflexivity. }
  repeat split; [exact Hstep|exact Hpass|].
  intros c c' l1 l2 w Hl Hl'. unfold Collect. rewrite Hl, Hl'.
  unfold bind at 1 4. rewrite Hpass. reflexivity.
Qed.

(** *** The claims about the samples *)

Lemma counterSamples_desc s :
  Forall (fun m => Prom.desc m = completeRolloutCountDesc) (counterSamples s).
Proof. repeat constructor. Qed.

Lemma durationSamples_imap l : forall n,
  durationSamples' l n =
  imap (fun k d => durationSample' d (clock (n + k)%nat))
       (filter (fun d => reachesActive d = true) l).
Proof.
  induction l as [|d l IH]; intros n; [reflexivity|].
  simpl durationSamples. rewrite filter_cons.
  destruct (reachesActive d) eqn:Hact.
  - rewrite decide_True by reflexivity. rewrite imap_cons, IH, Nat.add_0_r.
    f_equal. apply imap_ext. intros k x _. simpl. do 2 f_equal. lia.
  - rewrite decide_False by discriminate. apply IH.
Qed.

Lemma filter_ext_elem {A} (P Q : A -> Prop)
    `{forall x, Decision (P x)} `{forall x, Decision (Q x)} (xs : list A) :
  (forall x, x ∈ xs -> P x <-> Q x) -> filter P xs = filter Q xs.
Proof.
  induction xs as [|x xs IH]; intros Hpq; [reflexivity|].
  rewrite !filter_cons.
  assert (Hx : P x <-> Q x) by (apply Hpq; left).
  assert (Hxs : filter P xs = filter Q xs).
  { apply IH. intros y Hy. apply Hpq. by right. }
  destruct (decide (P x)) as [Hp|Hp], (decide (Q x)) as [Hq|Hq]; try tauto; by rewrite Hxs.
Qed.

(** With the terminal outcomes exhaustive, the active part is reached by
    the named resources that are not terminated, and by no other. *)
Lemma reachesActive_not_terminated d :
  (IsTerminatedDeployment d = true ->
   IsDeploymentCancelled d || IsFailedDeployment d || IsCompleteDeployment d = true) ->
  reachesActive d = true <-> named d = true /\ IsTerminatedDeployment d = false.
Proof.
  unfold reachesActive, classification. intros Hterm.
  destruct (named d), (IsTerminatedDeployment d) eqn:Ht; simpl.
  - specialize (Hterm eq_refl).
    destruct (IsDeploymentCancelled d), (IsFailedDeployment d), (IsCompleteDeployment d);
      simpl in Hterm; try discriminate Hterm;
      (rewrite bool_decide_eq_false_2 by discriminate);
      (split; [discriminate|intros [_ ?]; discriminate]).
  - split; [intros _; split; reflexivity|intros _; reflexivity].
  - split; [discriminate|intros [? _]; discriminate].
  - split; [discriminate|intros [? _]; discriminate].
Qed.

(** C3: in a scrape whose fetch succeeds, the samples of
    active_rollouts_duration_seconds are, in list order, one for each
    resource that has a workload name and is not terminated, and no
    other; the value of each is the clock reading taken for it minus the
    creation timestamp, in whole seconds.  The terminal outcomes are
    taken to be exhaustive (a terminated resource is cancelled, failed or
    complete) and the durations to fit the 53 bits a float64 holds
    exactly. *)
Theorem active_duration_samples (c : appsCollector RC) w result :
  List (lister c) Everything = (result, None) ->
  (forall d, d ∈ result -> IsTerminatedDeployment d = true ->
     IsDeploymentCancelled d || IsFailedDeployment d || IsCompleteDeployment d = true) ->
  (forall d k, d ∈ result -> (k < length result)%nat ->
     - 2 ^ 53 <= clock (clockReads w + k)%nat - CreationTimestamp_Unix d <= 2 ^ 53) ->
  exists w',
    Collect' c w = Returns tt w' /\
    filter (fun m => Prom.desc m = activeRolloutDurationSecondsDesc) (sentSince w w') =
    imap (fun k d =>
            Prom.mkMetric activeRolloutDurationSecondsDesc Prom.CounterValue
              (clock (clockReads w + k)%nat - CreationTimestamp_Unix d)
              [Namespace d; DeploymentConfigNameFor d; phaseOf ToLower d;
               GoStr.Sprintf_d (Status_ObservedGeneration d)])
         (filter (fun d => named d = true /\ IsTerminatedDeployment d = false) result).
Proof.
  intros Hl Hterm Hfit.
  eexists. split; [apply (Collect_runs c result w Hl)|].
  rewrite sentSince_app, filter_app.
  rewrite (filter_keeps_all _ _ (durationSamples_desc result (clockReads w))).
  rewrite filter_drops_all, app_nil_r.
  2:{ eapply Forall_impl; [apply counterSamples_desc|].
      intros m Hm. simpl in Hm. rewrite Hm. apply descs_distinct. }
  rewrite durationSamples_imap.
  rewrite (filter_ext_elem (fun d => reachesActive d = true)
             (fun d => named d = true /\ IsTerminatedDeployment d = false)).
  2:{ intros d Hd. apply reachesActive_not_terminated, Hterm, Hd. }
  apply imap_ext. intros k d Hk. unfold durationSample. f_equal.
  apply GoNumFacts.duration_exact, Hfit.
  - apply list_elem_of_lookup_2, list_elem_of_filter in Hk. tauto.
  - apply lookup_lt_Some in Hk.
    pose proof (length_filter (fun d => named d = true /\ IsTerminatedDeployment d = false) result).
    lia.
Qed.

(** C7: a scrape whose fetch succeeds sends exactly three samples of
    complete_rollouts_total: the available, the failed and the cancelled
    counter of the pass, in that order, each under its phase label, zero
    or not. *)
Theorem three_counter_samples (c : appsCollector RC) w result :
  List (lister c) Everything = (result, None) ->
  exists s' w1 w',
    forRange result perResource' initLocals w = Returns s' w1 /\
    Collect' c w = Returns tt w' /\
    filter (fun m => Prom.desc m = completeRolloutCountDesc) (sentSince w w') =
    [Prom.mkMetric completeRolloutCountDesc Prom.GaugeValue (available s') ["available"];
     Prom.mkMetric completeRolloutCountDesc Prom.GaugeValue (failed s') ["failed"];
     Prom.mkMetric completeRolloutCountDesc Prom.GaugeValue (cancelled s') ["cancelled"]].
Proof.
  intros Hl. do 3 eexists.
  split; [apply pass_runs|]. split; [apply (Collect_runs c result w Hl)|].
  rewrite sentSince_app, filter_app.
  rewrite filter_drops_all.
  2:{ eapply Forall_impl; [apply durationSamples_desc|].
      intros m Hm. simpl in Hm. rewrite Hm. intros Heq. symmetry in Heq.
      revert Heq. apply descs_distinct. }
  rewrite (filter_keeps_all _ _ (counterSamples_desc _)). reflexivity.
Qed.

(** C9: a resource that gets to the active part (it has a workload name
    and is not terminated, or is none of cancelled, failed, complete)
    sends one sample of active_rollouts_duration_seconds whose labels
    are its namespace, its workload name, its phase in lower case with
    unknown in place of the empty string, and its observed generation
    in decimal; the locals are left as they were. *)
Theorem active_sample_labels d s w :
  named d = true ->
  IsTerminatedDeployment d = false \/
  (IsDeploymentCancelled d = false /\ IsFailedDeployment d = false /\
   IsCompleteDeployment d = false) ->
  exists v,
    perResource' d s w =
    Returns s
      (mkWorld
         (sent w ++
          [Prom.mkMetric activeRolloutDurationSecondsDesc Prom.CounterValue v
             [Namespace d;
              DeploymentConfigNameFor d;
              (if decide (ToLower (DeploymentStatusFor d) = "") then "unknown"
               else ToLower (DeploymentStatusFor d));
              pretty (Status_ObservedGeneration d)]])
         (logged w) (S (clockReads w))).
Proof.
  intros Hn Hact.
  assert (Hcl : classification d = NotTerminated).
  { unfold classification. destruct Hact as [-> | (-> & -> & ->)]; [reflexivity|].
    destruct (IsTerminatedDeployment d); reflexivity. }
  eexists. rewrite perResource_runs. unfold reachesActive.
  rewrite Hn, Hcl. simpl andb. cbv iota.
  unfold localsAfter. apply named_len, Z.eqb_neq in Hn. rewrite Hn.
  rewrite (proj2 (terminatedPart_None d _ s) Hcl).
  unfold durationSample, phaseOf, GoStr.Sprintf_d, GoStr.len.
  destruct (ToLower (DeploymentStatusFor d)) as [|a p]; reflexivity.
Qed.

(** *** The claims about the counters *)

Lemma countOutcome_cons t d l :
  countOutcome t (d :: l) =
  (if named d && bool_decide (classification d = t) then 1 else 0) + countOutcome t l.
Proof.
  unfold countOutcome. rewrite filter_cons.
  destruct (named d && bool_decide (classification d = t)) eqn:Hp.
  - rewrite decide_True by reflexivity. simpl length. lia.
  - rewrite decide_False by discriminate. lia.
Qed.

Lemma countOutcome_bounds t l : 0 <= countOutcome t l <= Z.of_nat (length l).
Proof.
  unfold countOutcome.
  pose proof (length_filter
    (fun d => named d && bool_decide (classification d = t) = true) l).
  lia.
Qed.

(** One iteration steps the counter of the resource's outcome, and only
    that one, and only for a named resource. *)
Lemma localsAfter_counter t d s :
  t <> NotTerminated ->
  counterOf t (localsAfter d s) =
  if named d && bool_decide (classification d = t)
  then GoNum.float64_incr (counterOf t s) else counterOf t s.
Proof.
  intros Ht. unfold localsAfter, named, classification, terminatedPart.
  destruct (GoStr.len (DeploymentConfigNameFor d) =? 0); [reflexivity|].
  destruct (IsTerminatedDeployment d), (IsDeploymentCancelled d),
    (IsFailedDeployment d), (IsCompleteDeployment d), t;
    try congruence; reflexivity.
Qed.

Lemma passLocals_counter t l :
  t <> NotTerminated ->
  forall s,
    0 <= counterOf t s ->
    counterOf t s + countOutcome t l <= 2 ^ 53 ->
    counterOf t (passLocals l s) = counterOf t s + countOutcome t l.
Proof.
  intros Ht. induction l as [|d l IH]; intros s H0 Hfit.
  - unfold countOutcome. simpl. lia.
  - rewrite countOutcome_cons in *.
    pose proof (countOutcome_bounds t l) as Hb.
    change (passLocals (d :: l) s) with (passLocals l (localsAfter d s)).
    pose proof (localsAfter_counter t d s Ht) as Hstep.
    destruct (named d && bool_decide (classification d = t)).
    + rewrite GoNumFacts.float64_incr_exact in Hstep by lia.
      rewrite IH; rewrite Hstep; lia.
    + rewrite IH; rewrite Hstep; lia.
Qed.

Lemma terminated_count l :
  countOutcome Complete l + countOutcome Failed l + countOutcome Cancelled l =
  Z.of_nat (length (filter (fun d => named d = true /\ classification d <> NotTerminated) l)).
Proof.
  induction l as [|d l IH]; [reflexivity|].
  rewrite !countOutcome_cons, filter_cons.
  destruct (named d), (classification d) eqn:Hc; simpl andb.
  all: first [ rewrite decide_True by (split; congruence)
             | rewrite decide_False by (intros [? ?]; congruence) ].
  all: simpl length; cbn [bool_decide decide_rel]; simpl; lia.
Qed.

(** C4: after the pass over a resource list the available, failed and
    cancelled counters are the numbers of named resources whose outcome
    is complete, failed and cancelled, and their sum is the number of
    named resources with a terminal outcome; a resource without a name
    or one that is not terminated leaves all three as they were.  The
    counters are float64: the counts are exact up to [2^53] resources,
    more than a slice can hold. *)
Theorem counters_count_outcomes result w :
  Z.of_nat (length result) <= 2 ^ 53 ->
  (exists s' w',
      forRange result perResource' initLocals w = Returns s' w' /\
      available s' = countOutcome Complete result /\
      failed s' = countOutcome Failed result /\
      cancelled s' = countOutcome Cancelled result /\
      available s' + failed s' + cancelled s' =
        Z.of_nat (length (filter (fun d => named d = true /\
                                           classification d <> NotTerminated) result))) /\
  (forall d s w0,
      DeploymentConfigNameFor d = "" \/ IsTerminatedDeployment d = false ->
      exists s1 w1,
        perResource' d s w0 = Returns s1 w1 /\
        available s1 = available s /\ failed s1 = failed s /\ cancelled s1 = cancelled s).
Proof.
  intros Hlen. split.
  - do 2 eexists. split; [apply pass_runs|].
    assert (Hc : forall t, t <> NotTerminated ->
               counterOf t (passLocals result initLocals) = countOutcome t result).
    { intros t Ht. rewrite (passLocals_counter t result Ht initLocals).
      - destruct t; reflexivity.
      - destruct t; simpl; lia.
      - pose proof (countOutcome_bounds t result). destruct t; simpl; lia. }
    pose proof (Hc Complete ltac:(discriminate)) as Ha.
    pose proof (Hc Failed ltac:(discriminate)) as Hf.
    pose proof (Hc Cancelled ltac:(discriminate)) as Hcn.
    simpl in Ha, Hf, Hcn. rewrite Ha, Hf, Hcn.
    repeat split. apply terminated_count.
  - intros d s w0 Hskip. do 2 eexists. split; [apply perResource_runs|].
    unfold localsAfter, terminatedPart.
    destruct Hskip as [-> | ->]; [auto|].
    destruct (GoStr.len (DeploymentConfigNameFor d) =? 0); auto.
Qed.

(** *** The descriptors *)

(** C10: [Describe] sends exactly two descriptors, the one of
    complete_rollouts_total and then the one of
    active_rollouts_duration_seconds; the descriptor of
    last_failed_rollout_time is not among them. *)
Theorem Describe_sends_two_descriptors (c : appsCollector RC) (ch : list Prom.Desc) :
  Describe c ch = ch ++ [completeRolloutCountDesc; activeRolloutDurationSecondsDesc] /\
  Prom.fqName completeRolloutCountDesc =
    "openshift_apps_deploymentconfigs_complete_rollouts_total" /\
  Prom.fqName activeRolloutDurationSecondsDesc =
    "openshift_apps_deploymentconfigs_active_rollouts_duration_seconds" /\
  Prom.fqName lastFailedRolloutTimeDesc =
    "openshift_apps_deploymentconfigs_last_failed_rollout_time" /\
  lastFailedRolloutTimeDesc ∉ [completeRolloutCountDesc; activeRolloutDurationSecondsDesc].
Proof.
  unfold Describe. rewrite <- app_assoc. repeat split.
  destruct descs_distinct as (Hc & Ha & _).
  rewrite !not_elem_of_cons. repeat split; try congruence. apply not_elem_of_nil.
Qed.

End Properties.

(** * Further properties *)

(** ** Registration *)

Section LifecycleProperties.

Context {RC : Type} `{Deployments RC}.
Variable ToLower : string -> string.
Variable clock : nat -> Z.
Variable Registry : Type.
Variable Register : Registry -> option Registry.

Implicit Types (g : Globals RC Registry) (w : World)
  (rcLister : option (ReplicationControllerLister RC)).

Local Abbreviation Initialize := (IntializeMetricsCollector Register).

(** The world after [n] calls that returned. *)
Local Abbreviation afterCalls w n :=
  (mkWorld (sent w) (logged w ++ replicate n registeredLine) (clockReads w)).

Lemma initialize_registered rcLister g w :
  registered g = true ->
  Initialize rcLister g w =
  Returns (mkGlobals rcLister true (defaultRegistry g)) (afterCalls w 1).
Proof.
  intros Hr. unfold IntializeMetricsCollector. simpl. rewrite Hr. reflexivity.
Qed.

Lemma last_cons_default {A} (xs : list A) : forall x d,
  List.last (x :: xs) d = List.last xs x.
Proof.
  induction xs as [|y xs IH]; intros x d; [reflexivity|].
  change (List.last (x :: y :: xs) d) with (List.last (y :: xs) d).
  rewrite !IH. reflexivity.
Qed.

Lemma initialize_registered_many (ls : list (option (ReplicationControllerLister RC))) :
  forall g w,
    registered g = true ->
    forRange ls Initialize g w =
    Returns (mkGlobals (List.last ls (apps_lister g)) true (defaultRegistry g))
            (afterCalls w (length ls)).
Proof.
  induction ls as [|l ls IH]; intros g w Hr.
  - destruct g, w. simpl in *. subst. rewrite app_nil_r. reflexivity.
  - simpl forRange. unfold bind. rewrite (initialize_registered l g w Hr).
    rewrite IH by reflexivity. rewrite last_cons_default.
    simpl. rewrite <- app_assoc. reflexivity.
Qed.

Lemma initialize_first rcLister g w reg1 :
  registered g = false ->
  Register (defaultRegistry g) = Some reg1 ->
  Initialize rcLister g w = Returns (mkGlobals rcLister true reg1) (afterCalls w 1).
Proof.
  intros Hr Hreg. unfold IntializeMetricsCollector, MustRegister_apps, bind.
  simpl. rewrite Hr. simpl. rewrite Hreg. reflexivity.
Qed.

(** X1: however often [IntializeMetricsCollector] is called, the
    collector is registered once: when the first call finds the flag
    unset and its registration succeeds, every later call leaves the
    registry as that one registration made it (a second registration is
    never tried, so it cannot fail), the flag is set, the lister is the
    one of the last call, nothing is sent and each call logs one line. *)
Theorem initialize_registers_once rcLister
    (ls : list (option (ReplicationControllerLister RC))) g w reg1 :
  registered g = false ->
  Register (defaultRegistry g) = Some reg1 ->
  forRange (rcLister :: ls) Initialize g w =
  Returns (mkGlobals (List.last ls rcLister) true reg1)
          (mkWorld (sent w) (logged w ++ replicate (S (length ls)) registeredLine)
                   (clockReads w)).
Proof.
  intros Hr Hreg. simpl forRange. unfold bind.
  rewrite (initialize_first rcLister g w reg1 Hr Hreg).
  rewrite initialize_registered_many by reflexivity.
  simpl. rewrite <- app_assoc. reflexivity.
Qed.


(** X3: once the flag is set the calls do not depend on the registry
    operation at all: with any other [Register'], one that always fails
    included, the same sequence of calls gives the same result, and the
    registry is the one it was. *)
Theorem initialize_registered_ignores_registry
    (Register' : Registry -> option Registry)
    (ls : list (option (ReplicationControllerLister RC))) g w :
  registered g = true ->
  forRange ls Initialize g w = forRange ls (IntializeMetricsCollector Register') g w /\
  exists g' w',
    forRange ls Initialize g w = Returns g' w' /\
    defaultRegistry g' = defaultRegistry g /\ registered g' = true /\
    sent w' = sent w.
Proof.
  intros Hr. split.
  - rewrite initialize_registered_many by exact Hr.
    clear Register. revert g w Hr.
    induction ls as [|l ls IH]; intros g w Hr.
    + destruct g, w. simpl in *. subst. rewrite app_nil_r. reflexivity.
    + simpl forRange. unfold bind.
      assert (Hstep : IntializeMetricsCollector Register' l g w =
                      Returns (mkGlobals l true (defaultRegistry g)) (afterCalls w 1)).
      { unfold IntializeMetricsCollector. simpl. rewrite Hr. reflexivity. }
      rewrite Hstep, <- IH by reflexivity. rewrite last_cons_default.
      simpl. rewrite <- app_assoc. reflexivity.
  - do 2 eexists. split; [apply initialize_registered_many, Hr|]. auto.
Qed.

(** X4: the registry holds a pointer to [apps], so a scrape after a
    sequence of calls lists through the lister of the last call: it is
    [Collect] on that lister when the last call passed one, and a panic
    when it passed nil. *)
Theorem scrape_reads_last_lister rcLister
    (ls : list (option (ReplicationControllerLister RC))) g w reg1 :
  registered g = false ->
  Register (defaultRegistry g) = Some reg1 ->
  bind (forRange (rcLister :: ls) Initialize g) (Collect_apps ToLower clock) w =
  let w1 := mkWorld (sent w) (logged w ++ replicate (S (length ls)) registeredLine)
                    (clockReads w) in
  match List.last ls rcLister with
  | Some l => Collect ToLower clock (mkCollector l) w1
  | None => Panics w1
  end.
Proof.
  intros Hr Hreg. unfold bind at 1. simpl forRange. unfold bind at 1.
  rewrite (initialize_first rcLister g w reg1 Hr Hreg).
  rewrite initialize_registered_many by reflexivity.
  unfold Collect_apps. simpl apps_lister.
  replace (List.last ls (apps_lister (mkGlobals rcLister true reg1)))
    with (List.last ls rcLister) by reflexivity.
  simpl. rewrite <- app_assoc.
  destruct (List.last ls rcLister); reflexivity.
Qed.

End LifecycleProperties.

(** ** Keys, pieces and the loop over the index *)

Module GoStrFacts.
Import GoStr.

Lemma Split1_not_nil s c : Split1 s c <> [].
Proof.
  induction s as [|a s IH]; simpl; [discriminate|].
  destruct (Ascii.eqb a c); [discriminate|].
  destruct (Split1 s c); discriminate.
Qed.

Lemma Split1_free s c : freeOf c s = true -> Split1 s c = [s].
Proof.
  induction s as [|a s IH]; simpl; [reflexivity|].
  destruct (Ascii.eqb a c); simpl; [discriminate|].
  intros Hs. rewrite (IH Hs). reflexivity.
Qed.

Lemma Split1_app_sep a b c :
  freeOf c a = true -> Split1 (a +:+ String c b) c = a :: Split1 b c.
Proof.
  induction a as [|x a IH]; simpl.
  - intros _. rewrite Ascii.eqb_refl. reflexivity.
  - destruct (Ascii.eqb x c); simpl; [discriminate|].
    intros Ha. rewrite (IH Ha). reflexivity.
Qed.

Lemma Split1_two s c :
  freeOf c s = false -> exists p0 p1 rest, Split1 s c = p0 :: p1 :: rest.
Proof.
  induction s as [|a s IH]; simpl; [discriminate|].
  destruct (Ascii.eqb a c); simpl.
  - intros _. pose proof (Split1_not_nil s c) as Hne.
    destruct (Split1 s c) as [|p ps]; [congruence|]. eauto.
  - intros Hs. destruct (IH Hs) as (p0 & p1 & rest & ->). eauto.
Qed.

Lemma freeOf_app_sep a b c : freeOf c (a +:+ String c b) = false.
Proof.
  induction a as [|x a IH]; simpl.
  - rewrite Ascii.eqb_refl. reflexivity.
  - rewrite IH. apply andb_false_r.
Qed.

End GoStrFacts.

Section IndexLoopProperties.

Context {RC : Type} `{Deployments RC}.

Implicit Types (d : RC) (w : World) (r : failedRollout).

Lemma forRange_cons {A S} (x : A) (xs : list A) (body : A -> S -> Go S) (s : S) w :
  forRange (x :: xs) body s w =
  match body x s w with
  | Returns s' w' => forRange xs body s' w'
  | Panics w' => Panics w'
  end.
Proof. reflexivity. Qed.

Lemma perFailedRollout_runs dc r w :
  perFailedRollout (dc, r) tt w =
  match failedRolloutSample dc r with
  | Some m => Returns tt (mkWorld (sent w ++ [m]) (logged w) (clockReads w))
  | None => Panics w
  end.
Proof.
  unfold perFailedRollout, failedRolloutSample.
  destruct (GoStr.Split1 dc "/") as [|p0 [|p1 rest]]; destruct w; reflexivity.
Qed.

Lemma failedRolloutSample_slash dc r :
  freeOf "/" dc = false -> is_Some (failedRolloutSample dc r).
Proof.
  intros Hs. unfold failedRolloutSample.
  destruct (GoStrFacts.Split1_two dc "/" Hs) as (p0 & p1 & rest & ->). eauto.
Qed.

Lemma failedRolloutSample_free dc r :
  freeOf "/" dc = true -> failedRolloutSample dc r = None.
Proof.
  intros Hs. unfold failedRolloutSample.
  rewrite (GoStrFacts.Split1_free dc "/" Hs). reflexivity.
Qed.

Lemma index_loop_returns (es : list (string * failedRollout)) : forall w,
  Forall (fun e => freeOf "/" e.1 = false) es ->
  exists samples,
    forRange es perFailedRollout tt w =
      Returns tt (mkWorld (sent w ++ samples) (logged w) (clockReads w)) /\
    Forall2 (fun e m => failedRolloutSample e.1 e.2 = Some m) es samples.
Proof.
  induction es as [|[dc r] es IH]; intros w Hes.
  - exists []. destruct w. simpl. rewrite app_nil_r. split; [reflexivity|constructor].
  - apply Forall_cons in Hes as [Hdc Hes]. simpl in Hdc.
    destruct (failedRolloutSample_slash dc r Hdc) as [m Hm].
    destruct (IH (mkWorld (sent w ++ [m]) (logged w) (clockReads w)) Hes)
      as (samples & Hrun & Hall).
    exists (m :: samples). split.
    + rewrite forRange_cons, perFailedRollout_runs, Hm.
      rewrite Hrun. simpl. rewrite <- app_assoc. reflexivity.
    + constructor; assumption.
Qed.

Lemma index_loop_panics (es : list (string * failedRollout)) : forall w,
  Exists (fun e => freeOf "/" e.1 = true) es ->
  exists w', forRange es perFailedRollout tt w = Panics w'.
Proof.
  induction es as [|[dc r] es IH]; intros w Hes; [by apply Exists_nil in Hes|].
  rewrite forRange_cons, perFailedRollout_runs.
  destruct (failedRolloutSample dc r) as [m|] eqn:Hm; [|eauto].
  apply Exists_cons in Hes as [Hdc|Hes]; [|apply IH, Hes].
  simpl in Hdc. rewrite (failedRolloutSample_free dc r Hdc) in Hm. discriminate.
Qed.

(** X5: over an index whose keys all hold a slash, the loop of lines
    146-157 returns and sends one gauge sample per record, in the order
    it visits the records: the sample of a record carries its timestamp
    and, as labels, the first two pieces of its key and its generation
    in decimal.  Nothing is logged and the clock is not read. *)
Theorem index_loop_sends_one_sample_per_record (m : gmap string failedRollout) w :
  (forall dc r, m !! dc = Some r -> freeOf "/" dc = false) ->
  exists samples,
    forRange (map_to_list m) perFailedRollout tt w =
      Returns tt (mkWorld (sent w ++ samples) (logged w) (clockReads w)) /\
    length samples = size m /\
    Forall2 (fun e smp =>
               exists p0 p1 rest,
                 GoStr.Split1 e.1 "/" = p0 :: p1 :: rest /\
                 smp = Prom.mkMetric lastFailedRolloutTimeDesc Prom.GaugeValue
                         (timestamp e.2) [p0; p1; pretty (generation e.2)])
            (map_to_list m) samples.
Proof.
  intros Hkeys.
  destruct (index_loop_returns (map_to_list m) w) as (samples & Hrun & Hall).
  { apply Forall_forall. intros [dc r] He. apply elem_of_map_to_list in He.
    simpl. eapply Hkeys, He. }
  exists samples. split; [exact Hrun|]. split.
  - rewrite <- (Forall2_length _ _ _ Hall). apply length_map_to_list.
  - eapply Forall2_impl; [exact Hall|].
    intros [dc r] smp Hs. unfold failedRolloutSample in Hs. simpl in *.
    destruct (GoStr.Split1 dc "/") as [|p0 [|p1 rest]]; try discriminate Hs.
    injection Hs as <-. eauto.
Qed.

(** X6: a key without a slash has one piece only, and the loop panics
    at [parts[1]]: an index that holds such a key makes the loop of lines
    146-157 panic. *)
Theorem index_loop_panics_on_key_without_slash (m : gmap string failedRollout) w dc r :
  m !! dc = Some r ->
  freeOf "/" dc = true ->
  GoStr.Split1 dc "/" = [dc] /\
  perFailedRollout (dc, r) tt w = Panics w /\
  exists w', forRange (map_to_list m) perFailedRollout tt w = Panics w'.
Proof.
  intros Hm Hdc. split; [apply GoStrFacts.Split1_free, Hdc|]. split.
  - rewrite perFailedRollout_runs, (failedRolloutSample_free dc r Hdc). reflexivity.
  - apply index_loop_panics, Exists_exists. exists (dc, r). split; [|exact Hdc].
    apply elem_of_map_to_list, Hm.
Qed.

(** X7: every key line 105 builds holds a slash.  When the namespace
    has none, splitting the key gives back the namespace as the first
    piece and the pieces of the workload name after it, so the sample of
    a record under that key is labelled with the namespace and with the
    workload name up to its first slash: the whole name when it has none. *)
Theorem key_splits_into_namespace_and_name d name r :
  freeOf "/" (rolloutKey d name) = false /\
  (freeOf "/" (Namespace d) = true ->
   GoStr.Split1 (rolloutKey d name) "/" = Namespace d :: GoStr.Split1 name "/" /\
   failedRolloutSample (rolloutKey d name) r =
     Some (Prom.mkMetric lastFailedRolloutTimeDesc Prom.GaugeValue (timestamp r)
             [Namespace d; hd "" (GoStr.Split1 name "/"); pretty (generation r)]) /\
   (freeOf "/" name = true -> hd "" (GoStr.Split1 name "/") = name)).
Proof.
  unfold rolloutKey. split; [apply GoStrFacts.freeOf_app_sep|].
  intros Hns.
  assert (Hsplit : GoStr.Split1 (Namespace d +:+ "/" +:+ name) "/" =
                   Namespace d :: GoStr.Split1 name "/").
  { apply (GoStrFacts.Split1_app_sep (Namespace d) name "/" Hns). }
  split; [exact Hsplit|]. split.
  - unfold failedRolloutSample. rewrite Hsplit.
    pose proof (GoStrFacts.Split1_not_nil name "/") as Hne.
    destruct (GoStr.Split1 name "/") as [|p ps]; [congruence|]. reflexivity.
  - intros Hname. rewrite (GoStrFacts.Split1_free name "/" Hname). reflexivity.
Qed.

End IndexLoopProperties.

(** ** The index over a pass *)

Section IndexProperties.

Context {RC : Type} `{Deployments RC}.
Variable ToLower : string -> string.
Variable clock : nat -> Z.

Implicit Types (d : RC) (l : list RC) (s : Locals) (w : World)
  (m : gmap string failedRollout) (r : failedRollout).

Local Abbreviation perResource' := (perResource ToLower clock).
Local Abbreviation keyOf d := (rolloutKey d (DeploymentConfigNameFor d)).

(** The index after one iteration. *)
Lemma localsAfter_index d s :
  latestFailedRollouts (localsAfter d s) =
  if named d && bool_decide (classification d = Failed)
  then trackLatestFailed d (DeploymentConfigNameFor d) (latestFailedRollouts s)
  else latestFailedRollouts s.
Proof.
  unfold localsAfter, named, classification, terminatedPart.
  destruct (GoStr.len (DeploymentConfigNameFor d) =? 0); [reflexivity|].
  destruct (IsTerminatedDeployment d), (IsDeploymentCancelled d),
    (IsFailedDeployment d), (IsCompleteDeployment d); reflexivity.
Qed.

Lemma trackLatestFailed_not_newer d name m r :
  m !! rolloutKey d name = Some r ->
  Status_ObservedGeneration d <= generation r ->
  trackLatestFailed d name m = m.
Proof.
  intros Hm Hg. unfold trackLatestFailed. rewrite Hm.
  replace (Status_ObservedGeneration d >? generation r) with false; [reflexivity|].
  symmetry. rewrite Z.gtb_ltb. apply Z.ltb_ge. exact Hg.
Qed.

Lemma trackLatestFailed_dom d name m :
  dom (trackLatestFailed d name m) = dom m.
Proof.
  unfold trackLatestFailed.
  destruct (m !! rolloutKey d name) as [r|] eqn:Hm; [|reflexivity].
  destruct (Status_ObservedGeneration d >? generation r); [|reflexivity].
  apply dom_insert_lookup_L. rewrite Hm. eauto.
Qed.

Lemma trackLatestFailed_other d name m key :
  rolloutKey d name <> key -> trackLatestFailed d name m !! key = m !! key.
Proof.
  intros Hne. unfold trackLatestFailed.
  destruct (m !! rolloutKey d name) as [r|]; [|reflexivity].
  destruct (Status_ObservedGeneration d >? generation r); [|reflexivity].
  by apply lookup_insert_ne.
Qed.

Lemma trackLatestFailed_same d name m r :
  m !! rolloutKey d name = Some r ->
  exists r',
    trackLatestFailed d name m !! rolloutKey d name = Some r' /\
    generation r' = Z.max (generation r) (Status_ObservedGeneration d).
Proof.
  intros Hm.
  destruct (Z_lt_le_dec (generation r) (Status_ObservedGeneration d)) as [Hlt|Hle].
  - rewrite (trackLatestFailed_newer d name m r Hm Hlt), lookup_insert_eq.
    eexists. split; [reflexivity|]. simpl. lia.
  - rewrite (trackLatestFailed_not_newer d name m r Hm Hle).
    exists r. split; [exact Hm|]. lia.
Qed.

Lemma failedFor_true key d :
  failedFor key d = true <->
  named d && bool_decide (classification d = Failed) = true /\ keyOf d = key.
Proof.
  unfold failedFor. rewrite andb_true_iff, bool_decide_eq_true. reflexivity.
Qed.

Lemma failedGenerations_cons key d l :
  failedGenerations key (d :: l) =
  if failedFor key d
  then Status_ObservedGeneration d :: failedGenerations key l
  else failedGenerations key l.
Proof.
  unfold failedGenerations. rewrite filter_cons.
  destruct (failedFor key d).
  - rewrite decide_True by reflexivity. reflexivity.
  - rewrite decide_False by discriminate. reflexivity.
Qed.

Lemma fold_max_ge (gs : list Z) : forall g, g <= fold_left Z.max gs g.
Proof.
  induction gs as [|x gs IH]; intros g; simpl; [lia|].
  specialize (IH (Z.max g x)). lia.
Qed.

(** The record under a key after one iteration. *)
Lemma localsAfter_record key d s r :
  latestFailedRollouts s !! key = Some r ->
  exists r',
    latestFailedRollouts (localsAfter d s) !! key = Some r' /\
    generation r' =
      if failedFor key d then Z.max (generation r) (Status_ObservedGeneration d)
      else generation r.
Proof.
  intros Hr. rewrite localsAfter_index. unfold failedFor.
  destruct (named d && bool_decide (classification d = Failed)); simpl.
  - destruct (decide (keyOf d = key)) as [Hk|Hk].
    + rewrite (bool_decide_eq_true_2 _ Hk). subst key.
      apply trackLatestFailed_same, Hr.
    + rewrite (bool_decide_eq_false_2 _ Hk).
      rewrite trackLatestFailed_other by exact Hk. eauto.
  - eauto.
Qed.

(** X8: a pass in which no failed resource is newer than the record of
    its key, keys without a record included, leaves the index as it was,
    whatever the index holds at the start. *)
Theorem pass_without_newer_failure_keeps_index l s w :
  (forall d r, d ∈ l ->
     named d && bool_decide (classification d = Failed) = true ->
     latestFailedRollouts s !! keyOf d = Some r ->
     Status_ObservedGeneration d <= generation r) ->
  exists s' w',
    forRange l perResource' s w = Returns s' w' /\
    latestFailedRollouts s' = latestFailedRollouts s.
Proof.
  intros Hold. do 2 eexists. split; [apply pass_runs|].
  revert s Hold. induction l as [|d l IH]; intros s Hold; [reflexivity|].
  change (passLocals (d :: l) s) with (passLocals l (localsAfter d s)).
  assert (Hstep : latestFailedRollouts (localsAfter d s) = latestFailedRollouts s).
  { rewrite localsAfter_index.
    destruct (named d && bool_decide (classification d = Failed)) eqn:Hf; [|reflexivity].
    destruct (latestFailedRollouts s !! keyOf d) as [r|] eqn:Hr.
    - apply (trackLatestFailed_not_newer _ _ _ r Hr).
      apply (Hold d r); [left|exact Hf|exact Hr].
    - apply trackLatestFailed_absent, Hr. }
  rewrite IH; [exact Hstep|].
  intros d' r' Hd' Hf' Hr'. rewrite Hstep in Hr'.
  apply (Hold d' r'); [by right|exact Hf'|exact Hr'].
Qed.

(** X9: a pass never adds a key to the index and never removes one:
    from any index, the keys after the pass are the keys before it. *)
Theorem pass_keeps_index_keys l s w :
  exists s' w',
    forRange l perResource' s w = Returns s' w' /\
    dom (latestFailedRollouts s') = dom (latestFailedRollouts s).
Proof.
  do 2 eexists. split; [apply pass_runs|].
  revert s. induction l as [|d l IH]; intros s; [reflexivity|].
  change (passLocals (d :: l) s) with (passLocals l (localsAfter d s)).
  rewrite IH, localsAfter_index.
  destruct (named d && bool_decide (classification d = Failed)); [|reflexivity].
  apply trackLatestFailed_dom.
Qed.

(** X10: for a key that has a record when the pass starts, the record
    after the pass holds the greatest generation among the record's own
    and those of the failed resources of the list under that key; so the
    generation of a record never goes down. *)
Theorem pass_records_latest_generation l s w key r :
  latestFailedRollouts s !! key = Some r ->
  exists s' w' r',
    forRange l perResource' s w = Returns s' w' /\
    latestFailedRollouts s' !! key = Some r' /\
    generation r' = fold_left Z.max (failedGenerations key l) (generation r) /\
    generation r <= generation r'.
Proof.
  intros Hr.
  assert (Hpass : exists r',
             latestFailedRollouts (passLocals l s) !! key = Some r' /\
             generation r' = fold_left Z.max (failedGenerations key l) (generation r)).
  { revert s r Hr. induction l as [|d l IH]; intros s r Hr; [eauto|].
    change (passLocals (d :: l) s) with (passLocals l (localsAfter d s)).
    destruct (localsAfter_record key d s r Hr) as (r1 & Hr1 & Hg1).
    destruct (IH _ _ Hr1) as (r' & Hr' & Hg').
    exists r'. split; [exact Hr'|].
    rewrite Hg', Hg1, failedGenerations_cons.
    destruct (failedFor key d); reflexivity. }
  destruct Hpass as (r' & Hr' & Hg').
  exists (passLocals l s), (passWorld ToLower clock l w), r'.
  split; [apply pass_runs|]. split; [exact Hr'|]. split; [exact Hg'|].
  rewrite Hg'. apply fold_max_ge.
Qed.

(** X11: a failed resource that is listed twice in a row moves the
    index as one listing does, while it is counted twice. *)
Theorem duplicate_failure_moves_index_once d s w :
  named d = true ->
  IsTerminatedDeployment d = true ->
  IsDeploymentCancelled d = false ->
  IsFailedDeployment d = true ->
  exists s1 s2,
    forRange [d] perResource' s w = Returns s1 w /\
    forRange [d; d] perResource' s w = Returns s2 w /\
    latestFailedRollouts s2 = latestFailedRollouts s1 /\
    failed s2 = GoNum.float64_incr (GoNum.float64_incr (failed s)).
Proof.
  intros Hn Ht Hc Hf.
  pose proof (perResource_failed ToLower clock d) as Hstep.
  do 2 eexists. split; [|split].
  - rewrite forRange_cons, (Hstep s w Hn Ht Hc Hf). reflexivity.
  - rewrite forRange_cons, (Hstep s w Hn Ht Hc Hf). cbv iota.
    rewrite forRange_cons, (Hstep _ w Hn Ht Hc Hf). reflexivity.
  - split; [|reflexivity]. simpl.
    set (m := latestFailedRollouts s).
    destruct (m !! keyOf d) as [r|] eqn:Hr.
    + destruct (trackLatestFailed_same d (DeploymentConfigNameFor d) m r Hr)
        as (r' & Hr' & Hg').
      apply (trackLatestFailed_not_newer _ _ _ r' Hr'). lia.
    + rewrite (trackLatestFailed_absent d _ m Hr).
      apply trackLatestFailed_absent, Hr.
Qed.

End IndexProperties.

(** ** The whole scrape, once more *)

Section ScrapeProperties.

Context {RC : Type} `{Deployments RC}.
Variable ToLower : string -> string.
Variable clock : nat -> Z.

Implicit Types (d : RC) (l result : list RC) (s : Locals) (w : World).

Local Abbreviation perResource' := (perResource ToLower clock).
Local Abbreviation Collect' := (Collect ToLower clock).
Local Abbreviation durationSamples' := (durationSamples ToLower clock).
Local Abbreviation active l := (filter (fun d => reachesActive d = true) l).
Local Abbreviation isDuration := (fun m => Prom.desc m = activeRolloutDurationSecondsDesc).
Local Abbreviation isCounter := (fun m => Prom.desc m = completeRolloutCountDesc).

Lemma float64_incr_saturates x :
  0 <= x <= 2 ^ 53 -> GoNum.float64_incr x = Z.min (x + 1) (2 ^ 53).
Proof.
  intros Hx. destruct (Z.eq_dec x (2 ^ 53)) as [->|Hne]; [reflexivity|].
  rewrite GoNumFacts.float64_incr_exact by lia. lia.
Qed.

Lemma passLocals_counter_saturates t l :
  t <> NotTerminated ->
  forall s,
    0 <= counterOf t s <= 2 ^ 53 ->
    counterOf t (passLocals l s) = Z.min (counterOf t s + countOutcome t l) (2 ^ 53).
Proof.
  intros Ht. induction l as [|d l IH]; intros s Hs.
  - unfold countOutcome. simpl. lia.
  - rewrite countOutcome_cons.
    pose proof (countOutcome_bounds t l) as Hb.
    change (passLocals (d :: l) s) with (passLocals l (localsAfter d s)).
    pose proof (localsAfter_counter t d s Ht) as Hstep.
    destruct (named d && bool_decide (classification d = t)).
    + rewrite float64_incr_saturates in Hstep by exact Hs.
      rewrite IH; rewrite Hstep; lia.
    + rewrite IH; rewrite Hstep; lia.
Qed.

Lemma pass_counters result :
  available (passLocals result initLocals) = Z.min (countOutcome Complete result) (2 ^ 53) /\
  failed (passLocals result initLocals) = Z.min (countOutcome Failed result) (2 ^ 53) /\
  cancelled (passLocals result initLocals) = Z.min (countOutcome Cancelled result) (2 ^ 53).
Proof.
  pose proof (fun t Ht => passLocals_counter_saturates t result Ht initLocals) as Hc.
  repeat split.
  - apply (Hc Complete); [discriminate|simpl; lia].
  - apply (Hc Failed); [discriminate|simpl; lia].
  - apply (Hc Cancelled); [discriminate|simpl; lia].
Qed.

Lemma countOutcome_Permutation t l l' : l ≡ₚ l' -> countOutcome t l = countOutcome t l'.
Proof.
  intros Hp. unfold countOutcome. f_equal. apply Permutation_length.
  by apply filter_Permutation.
Qed.

Lemma length_durationSamples l : forall n,
  length (durationSamples' l n) = length (active l).
Proof.
  intros n. rewrite durationSamples_imap. apply length_imap.
Qed.

Lemma named_accounted l :
  countOutcome Complete l + countOutcome Failed l + countOutcome Cancelled l
  + Z.of_nat (length (active l)) =
  Z.of_nat (length (filter (fun d => named d = true) l)).
Proof.
  induction l as [|d l IH]; [reflexivity|].
  rewrite !countOutcome_cons, !filter_cons.
  assert (Hact : reachesActive d =
                 named d && bool_decide (classification d = NotTerminated)) by reflexivity.
  rewrite Hact.
  destruct (named d), (classification d); simpl; lia.
Qed.

Lemma phaseOf_not_empty d : phaseOf ToLower d <> "".
Proof.
  unfold phaseOf, GoStr.len.
  destruct (ToLower (DeploymentStatusFor d)); simpl; discriminate.
Qed.

Lemma durationSamples_labels l : forall n,
  Forall (fun m => exists ns name phase gen,
                     Prom.labelValues m = [ns; name; phase; gen] /\
                     name <> "" /\ phase <> "")
         (durationSamples' l n).
Proof.
  induction l as [|d l IH]; intros n; simpl; [constructor|].
  destruct (reachesActive d) eqn:Hact; [|apply IH].
  constructor; [|apply IH].
  do 4 eexists. split; [reflexivity|]. split; [|apply phaseOf_not_empty].
  unfold reachesActive in Hact. apply andb_true_iff in Hact as [Hn _].
  apply named_len in Hn. intros Hempty. rewrite Hempty in Hn. by apply Hn.
Qed.

(** X12: the counters of a pass are the outcome counts of the list cut
    off at [2^53], where a float64 stepped by one stops growing; this
    holds for every list, with no bound on its length. *)
Theorem counters_saturate result w :
  exists s' w',
    forRange result perResource' initLocals w = Returns s' w' /\
    available s' = Z.min (countOutcome Complete result) (2 ^ 53) /\
    failed s' = Z.min (countOutcome Failed result) (2 ^ 53) /\
    cancelled s' = Z.min (countOutcome Cancelled result) (2 ^ 53).
Proof.
  do 2 eexists. split; [apply pass_runs|]. apply pass_counters.
Qed.

(** X13: the three counter samples of a scrape do not depend on the
    order in which the lister returns the resources: two scrapes over
    lists that are permutations of each other send the same counter
    samples. *)
Theorem counter_samples_ignore_list_order (c c' : appsCollector RC) w w0 result result' :
  List (lister c) Everything = (result, None) ->
  List (lister c') Everything = (result', None) ->
  result ≡ₚ result' ->
  exists w1 w1',
    Collect' c w = Returns tt w1 /\
    Collect' c' w0 = Returns tt w1' /\
    filter isCounter (sentSince w w1) = filter isCounter (sentSince w0 w1').
Proof.
  intros Hl Hl' Hp. do 2 eexists.
  split; [apply (Collect_runs _ _ c result w Hl)|].
  split; [apply (Collect_runs _ _ c' result' w0 Hl')|].
  rewrite !sentSince_app, !filter_app.
  assert (Hdrop : forall l n, filter isCounter (durationSamples' l n) = []).
  { intros l n. apply filter_drops_all.
    eapply Forall_impl; [apply durationSamples_desc|].
    intros m Hm. simpl in Hm. rewrite Hm. intros Heq. symmetry in Heq.
    revert Heq. apply descs_distinct. }
  rewrite !Hdrop. simpl app. f_equal.
  destruct (pass_counters result) as (Ha & Hf & Hc).
  destruct (pass_counters result') as (Ha' & Hf' & Hc').
  unfold counterSamples.
  rewrite Ha, Hf, Hc, Ha', Hf', Hc'.
  rewrite !(countOutcome_Permutation _ result result' Hp). reflexivity.
Qed.

(** X14: a scrape accounts for every named resource once: while the
    counters are exact, the values of the three counter samples and the
    number of duration samples add up to the number of resources with a
    workload name. *)
Theorem every_named_resource_is_accounted (c : appsCollector RC) w result :
  List (lister c) Everything = (result, None) ->
  Z.of_nat (length result) <= 2 ^ 53 ->
  exists w' a f k,
    Collect' c w = Returns tt w' /\
    filter isCounter (sentSince w w') =
      [Prom.mkMetric completeRolloutCountDesc Prom.GaugeValue a ["available"];
       Prom.mkMetric completeRolloutCountDesc Prom.GaugeValue f ["failed"];
       Prom.mkMetric completeRolloutCountDesc Prom.GaugeValue k ["cancelled"]] /\
    a + f + k + Z.of_nat (length (filter isDuration (sentSince w w'))) =
      Z.of_nat (length (filter (fun d => named d = true) result)).
Proof.
  intros Hl Hlen. do 4 eexists.
  split; [apply (Collect_runs _ _ c result w Hl)|].
  rewrite sentSince_app, !filter_app.
  rewrite (filter_keeps_all isDuration _ (durationSamples_desc _ _ result (clockReads w))).
  rewrite (filter_drops_all isCounter (durationSamples' result (clockReads w))).
  2:{ eapply Forall_impl; [apply durationSamples_desc|].
      intros m Hm. simpl in Hm. rewrite Hm. intros Heq. symmetry in Heq.
      revert Heq. apply descs_distinct. }
  rewrite (filter_keeps_all isCounter _ (counterSamples_desc _)).
  rewrite (filter_drops_all isDuration (counterSamples _)).
  2:{ eapply Forall_impl; [apply counterSamples_desc|].
      intros m Hm. simpl in Hm. rewrite Hm. apply descs_distinct. }
  split; [reflexivity|].
  rewrite app_nil_r, length_durationSamples.
  destruct (pass_counters result) as (Ha & Hf & Hc). rewrite Ha, Hf, Hc.
  pose proof (countOutcome_bounds Complete result).
  pose proof (countOutcome_bounds Failed result).
  pose proof (countOutcome_bounds Cancelled result).
  rewrite !Z.min_l by lia. apply named_accounted.
Qed.

(** X15: the shape of a scrape whose fetch succeeds: it sends the
    duration samples first and the three counter samples last, three
    more samples than there are resources reaching the active part; it
    reads the clock once for each of those resources and logs nothing. *)
Theorem scrape_sends_durations_then_counters (c : appsCollector RC) w result :
  List (lister c) Everything = (result, None) ->
  exists w',
    Collect' c w = Returns tt w' /\
    length (sentSince w w') = (length (active result) + 3)%nat /\
    Forall isDuration (take (length (active result)) (sentSince w w')) /\
    Forall isCounter (drop (length (active result)) (sentSince w w')) /\
    sent w' = sent w ++ sentSince w w' /\
    logged w' = logged w /\
    clockReads w' = (clockReads w + length (active result))%nat.
Proof.
  intros Hl. eexists. split; [apply (Collect_runs _ _ c result w Hl)|].
  rewrite sentSince_app.
  pose proof (length_durationSamples result (clockReads w)) as Hlen.
  repeat split.
  - rewrite length_app, Hlen. reflexivity.
  - rewrite <- Hlen, take_app_length. apply durationSamples_desc.
  - rewrite <- Hlen, drop_app_length. apply counterSamples_desc.
Qed.

(** X16: a scrape neither reads nor changes what is already in the
    channel and in the log: run from any world, it appends what it would
    send and log from an empty world with the same clock. *)
Theorem scrape_only_appends (c : appsCollector RC) w :
  exists w0,
    Collect' c (mkWorld [] [] (clockReads w)) = Returns tt w0 /\
    Collect' c w =
      Returns tt (mkWorld (sent w ++ sent w0) (logged w ++ logged w0) (clockReads w0)).
Proof.
  destruct (List (lister c) Everything) as [result [e|]] eqn:Hl.
  - eexists. split; unfold Collect; rewrite Hl; [reflexivity|].
    destruct w. unfold glog_V_Infof. simpl. rewrite app_nil_r. reflexivity.
  - eexists. split; [apply (Collect_runs _ _ c result _ Hl)|].
    rewrite (Collect_runs _ _ c result w Hl). simpl. rewrite app_nil_r. reflexivity.
Qed.

(** X17: every sample of every scrape fits a descriptor that
    [Describe] announces: its descriptor is one of the two [Describe]
    sends, and it has as many label values as the descriptor has
    variable labels. *)
Theorem samples_fit_described_descriptors (c : appsCollector RC) w :
  exists w',
    Collect' c w = Returns tt w' /\
    Forall (fun m => Prom.desc m ∈ Describe c [] /\
                     length (Prom.labelValues m) =
                     length (Prom.variableLabels (Prom.desc m)))
           (sentSince w w').
Proof.
  destruct (List (lister c) Everything) as [result [e|]] eqn:Hl.
  - eexists. split; [unfold Collect; rewrite Hl; reflexivity|].
    unfold sentSince. simpl. rewrite drop_all. constructor.
  - eexists. split; [apply (Collect_runs _ _ c result w Hl)|].
    rewrite sentSince_app. apply Forall_app. split.
    + pose proof (durationSamples_desc ToLower clock result (clockReads w)) as Hd.
      pose proof (durationSamples_labels result (clockReads w)) as Hlab.
      rewrite Forall_forall in Hd, Hlab. apply Forall_forall. intros m Hm.
      destruct (Hlab m Hm) as (ns & name & phase & gen & Hvals & _).
      rewrite (Hd m Hm), Hvals. split; [|reflexivity].
      unfold Describe. simpl. set_solver.
    + repeat constructor; unfold Describe; simpl; set_solver.
Qed.

(** X18: no duration sample has an empty name label or an empty phase
    label, whatever the resources hold and whatever [strings.ToLower]
    returns. *)
Theorem duration_labels_are_not_empty (c : appsCollector RC) w :
  exists w',
    Collect' c w = Returns tt w' /\
    Forall (fun m => exists ns name phase gen,
                       Prom.labelValues m = [ns; name; phase; gen] /\
                       name <> "" /\ phase <> "")
           (filter isDuration (sentSince w w')).
Proof.
  destruct (List (lister c) Everything) as [result [e|]] eqn:Hl.
  - eexists. split; [unfold Collect; rewrite Hl; reflexivity|].
    unfold sentSince. simpl. rewrite drop_all. constructor.
  - eexists. split; [apply (Collect_runs _ _ c result w Hl)|].
    rewrite sentSince_app, filter_app.
    rewrite (filter_keeps_all isDuration _ (durationSamples_desc _ _ result (clockReads w))).
    rewrite (filter_drops_all isDuration (counterSamples _)), app_nil_r.
    2:{ eapply Forall_impl; [apply counterSamples_desc|].
        intros m Hm. simpl in Hm. rewrite Hm. apply descs_distinct. }
    apply durationSamples_labels.
Qed.

End ScrapeProperties.

(** ** Metric names *)

(** X19: [nameToQuery] puts the subsystem and an underscore before
    the name and maps different names to different metric names; the
    names of the three descriptors are pairwise different. *)
Theorem nameToQuery_prefixes_and_separates (a b : string) :
  nameToQuery a = "openshift_apps_deploymentconfigs_" +:+ a /\
  (nameToQuery a = nameToQuery b -> a = b) /\
  Prom.fqName completeRolloutCountDesc <> Prom.fqName lastFailedRolloutTimeDesc /\
  Prom.fqName completeRolloutCountDesc <> Prom.fqName activeRolloutDurationSecondsDesc /\
  Prom.fqName lastFailedRolloutTimeDesc <> Prom.fqName activeRolloutDurationSecondsDesc.
Proof.
  split; [reflexivity|]. split.
  - intros Heq.
    change (nameToQuery a) with ("openshift_apps_deploymentconfigs_" +:+ a) in Heq.
    change (nameToQuery b) with ("openshift_apps_deploymentconfigs_" +:+ b) in Heq.
    by apply (inj (String.app _)) in Heq.
  - repeat split; discriminate.
Qed.

(** * The properties at concrete resources *)

Module Scenarios.
Import Samples.

(** [fmt.Sprintf("%d", _)] on a few generations. *)
Example Sprintf_d_samples :
  GoStr.Sprintf_d 0 = "0" /\ GoStr.Sprintf_d 42 = "42" /\
  GoStr.Sprintf_d (-7) = "-7" /\
  GoStr.Sprintf_d GoNum.int64_max = "9223372036854775807".
Proof. repeat split; vm_compute; reflexivity. Qed.

(** The conversion to float64 rounds to even above [2^53]. *)
Example round53_samples :
  GoNum.round53 (2 ^ 53 + 1) = 2 ^ 53 /\
  GoNum.round53 (2 ^ 53 + 3) = 2 ^ 53 + 4 /\
  GoNum.round53 (- (2 ^ 53 + 3)) = - (2 ^ 53 + 4) /\
  GoNum.round53 GoNum.int64_max = 2 ^ 63 /\
  GoNum.float64_incr (2 ^ 53) = 2 ^ 53.
Proof. repeat split; vm_compute; reflexivity. Qed.

(** Section 8 of the specification: a cancelled A and two failures of B,
    the second of a higher generation.  The counters are 0, 2 and 1 and
    the index stays empty: only the three counter samples are sent. *)
Example scenario_cancelled_failed_failed :
  run [cancelledA; failedB1; failedB2] =
  Returns tt (mkWorld (counterSamples (mkLocals 0 2 1 ∅)) [] 0).
Proof. vm_compute. reflexivity. Qed.

(** Section 8 of the specification: one active resource with an empty
    phase gives one duration sample whose phase label is unknown. *)
Example scenario_active_empty_phase :
  run [activeC] =
  Returns tt
    (mkWorld
       (Prom.mkMetric activeRolloutDurationSecondsDesc Prom.CounterValue 600
          ["ns"; "c"; "unknown"; "3"]
        :: counterSamples (mkLocals 0 0 0 ∅)) [] 1).
Proof. vm_compute. reflexivity. Qed.

(** The loop of lines 146-157 over an index with one record (a state
    the pass itself never builds): one sample, labelled by the two
    parts of the key and the generation. *)
Example scenario_index_with_one_record :
  forRange (map_to_list ({[ "ns/b" := mkFailedRollout 300 2 ]} : gmap string failedRollout))
    perFailedRollout tt world0 =
  Returns tt
    (mkWorld
       [Prom.mkMetric lastFailedRolloutTimeDesc Prom.GaugeValue 300 ["ns"; "b"; "2"]] [] 0).
Proof. vm_compute. reflexivity. Qed.

(** A failed fetch. *)
Example scenario_fetch_failure :
  Collect lower clock0 (mkCollector (listerOf [activeC] (Some "cache not synced"))) world0 =
  Returns tt
    (mkWorld [] [mkLogLine 4 "Collecting metrics for apps failed: cache not synced"] 0).
Proof. vm_compute. reflexivity. Qed.

Lemma first_failure_seeds_no_entry_witness :
  exists s',
    perResource lower clock0 failedB1 initLocals world0 = Returns s' world0 /\
    latestFailedRollouts s' = ∅ /\
    latestFailedRollouts s' !! "ns/b" = None /\
    failed s' = 1.
Proof.
  exact (proj1 (first_failure_seeds_no_entry lower clock0 failedB1 initLocals world0
                  eq_refl eq_refl eq_refl eq_refl eq_refl)).
Defined.

Lemma newer_failure_replaces_entry_witness :
  exists s',
    perResource lower clock0 failedB2
      (mkLocals 0 1 0 {[ "ns/b" := mkFailedRollout 200 1 ]}) world0 = Returns s' world0 /\
    latestFailedRollouts s' !! "ns/b" = Some (mkFailedRollout 300 2) /\
    latestFailedRollouts s' !! "ns/b" <> Some (mkFailedRollout 200 1).
Proof.
  exact (newer_failure_replaces_entry lower clock0 failedB2
           (mkLocals 0 1 0 {[ "ns/b" := mkFailedRollout 200 1 ]}) world0
           (mkFailedRollout 200 1) eq_refl eq_refl eq_refl eq_refl eq_refl eq_refl).
Defined.

Lemma fetch_failure_sends_nothing_witness :
  exists w',
    Collect lower clock0 (mkCollector (listerOf [activeC] (Some "cache not synced"))) world0 =
      Returns tt w' /\
    sent w' = [] /\
    sentSince world0 w' = [] /\
    logged w' = [mkLogLine 4 "Collecting metrics for apps failed: cache not synced"].
Proof.
  exact (fetch_failure_sends_nothing lower clock0
           (mkCollector (listerOf [activeC] (Some "cache not synced"))) world0
           [activeC] "cache not synced" eq_refl).
Defined.

Lemma empty_name_is_skipped_witness :
  DeploymentConfigNameFor unnamed = "" /\
  perResource lower clock0 unnamed (mkLocals 1 2 3 ∅) world0 =
    Returns (mkLocals 1 2 3 ∅) world0 /\
  run [cancelledA; unnamed; activeC] = run [cancelledA; activeC].
Proof.
  split; [reflexivity|].
  pose proof (empty_name_is_skipped lower clock0 unnamed eq_refl) as (Hstep & _ & Hscrape).
  split; [apply Hstep|].
  exact (Hscrape (mkCollector (listerOf [cancelledA; unnamed; activeC] None))
                 (mkCollector (listerOf [cancelledA; activeC] None))
                 [cancelledA] [activeC] world0 eq_refl eq_refl).
Defined.

Lemma active_sample_labels_witness :
  exists v,
    perResource lower clock0 runningE initLocals world0 =
    Returns initLocals
      (mkWorld
         [Prom.mkMetric activeRolloutDurationSecondsDesc Prom.CounterValue v
            ["prod"; "e"; "running"; "7"]] [] 1).
Proof.
  exact (active_sample_labels lower clock0 runningE initLocals world0
           eq_refl (or_introl eq_refl)).
Defined.

Lemma three_counter_samples_witness :
  exists s' w1 w',
    forRange [cancelledA; failedB1; activeC; failedB2] (perResource lower clock0)
      initLocals world0 = Returns s' w1 /\
    run [cancelledA; failedB1; activeC; failedB2] = Returns tt w' /\
    filter (fun m => Prom.desc m = completeRolloutCountDesc) (sentSince world0 w') =
    [Prom.mkMetric completeRolloutCountDesc Prom.GaugeValue (available s') ["available"];
     Prom.mkMetric completeRolloutCountDesc Prom.GaugeValue (failed s') ["failed"];
     Prom.mkMetric completeRolloutCountDesc Prom.GaugeValue (cancelled s') ["cancelled"]].
Proof.
  exact (three_counter_samples lower clock0
           (mkCollector (listerOf [cancelledA; failedB1; activeC; failedB2] None))
           world0 _ eq_refl).
Defined.

Lemma counters_count_outcomes_witness :
  exists s' w',
    forRange [cancelledA; failedB1; activeC; unnamed; failedB2; completeD]
      (perResource lower clock0) initLocals world0 = Returns s' w' /\
    available s' = 1 /\ failed s' = 2 /\ cancelled s' = 1 /\
    available s' + failed s' + cancelled s' = 4.
Proof.
  refine (proj1 (counters_count_outcomes lower clock0
                   [cancelledA; failedB1; activeC; unnamed; failedB2; completeD] world0 _)).
  vm_compute. discriminate.
Defined.

Lemma active_duration_samples_witness :
  exists w',
    run [cancelledA; activeC; unnamed; runningE; completeD] = Returns tt w' /\
    filter (fun m => Prom.desc m = activeRolloutDurationSecondsDesc) (sentSince world0 w') =
    [Prom.mkMetric activeRolloutDurationSecondsDesc Prom.CounterValue (1000 - 400)
       ["ns"; "c"; "unknown"; "3"];
     Prom.mkMetric activeRolloutDurationSecondsDesc Prom.CounterValue (1001 - 500)
       ["prod"; "e"; "running"; "7"]].
Proof.
  refine (active_duration_samples lower clock0
            (mkCollector (listerOf [cancelledA; activeC; unnamed; runningE; completeD] None))
            world0 [cancelledA; activeC; unnamed; runningE; completeD] eq_refl _ _).
  - intros d Hd Ht.
    repeat (apply elem_of_cons in Hd as [-> | Hd]);
      first [reflexivity | discriminate Ht | by apply elem_of_nil in Hd].
  - intros d k Hd Hk. simpl in Hk. unfold clock0, tickingClock.
    repeat (apply elem_of_cons in Hd as [-> | Hd]);
      first [by apply elem_of_nil in Hd | simpl; lia].
Defined.

End Scenarios.

(** * The further properties at concrete resources *)

Module MoreScenarios.
Import Samples.

Lemma initialize_registers_once_witness :
  forRange [Some listerA; None; Some listerB]
    (IntializeMetricsCollector registerApps) (initGlobals []) world0 =
  Returns (mkGlobals (Some listerB) true ["apps"])
          (mkWorld [] [registeredLine; registeredLine; registeredLine] 0).
Proof.
  exact (initialize_registers_once (list string) registerApps (Some listerA)
           [None; Some listerB] (initGlobals []) world0 ["apps"] eq_refl eq_refl).
Defined.


Lemma initialize_registered_ignores_registry_witness :
  forRange [Some listerA; Some listerB]
    (IntializeMetricsCollector registerApps) (mkGlobals None true ["apps"]) world0 =
  forRange [Some listerA; Some listerB]
    (IntializeMetricsCollector registerNever) (mkGlobals None true ["apps"]) world0.
Proof.
  exact (proj1 (initialize_registered_ignores_registry (list string) registerApps
                  registerNever [Some listerA; Some listerB]
                  (mkGlobals None true ["apps"]) world0 eq_refl)).
Defined.

Lemma scrape_reads_last_lister_witness :
  bind (forRange [Some listerA; Some listerB]
          (IntializeMetricsCollector registerApps) (initGlobals []))
       (Collect_apps lower clock0) world0 =
  Collect lower clock0 (mkCollector listerB)
    (mkWorld [] [registeredLine; registeredLine] 0).
Proof.
  exact (scrape_reads_last_lister lower clock0 (list string) registerApps
           (Some listerA) [Some listerB] (initGlobals []) world0 ["apps"]
           eq_refl eq_refl).
Defined.

Lemma index_loop_sends_one_sample_per_record_witness :
  exists samples,
    forRange (map_to_list ({[ "ns/b" := mkFailedRollout 300 2 ]} : gmap string failedRollout))
      perFailedRollout tt world0 =
      Returns tt (mkWorld (sent world0 ++ samples) [] 0) /\
    length samples = 1%nat.
Proof.
  destruct (index_loop_sends_one_sample_per_record
              {[ "ns/b" := mkFailedRollout 300 2 ]} world0) as (samples & Hrun & Hlen & _).
  - intros dc r Hdc. apply lookup_singleton_Some in Hdc as [<- _]. reflexivity.
  - exists samples. split; [exact Hrun|]. rewrite Hlen. apply map_size_singleton.
Defined.

Lemma index_loop_panics_on_key_without_slash_witness :
  perFailedRollout ("b", mkFailedRollout 300 2) tt world0 = Panics world0.
Proof.
  exact (proj1 (proj2 (index_loop_panics_on_key_without_slash
                         {[ "b" := mkFailedRollout 300 2 ]} world0 "b"
                         (mkFailedRollout 300 2) eq_refl eq_refl))).
Defined.

Lemma pass_without_newer_failure_keeps_index_witness :
  exists s' w',
    forRange [failedB1; cancelledA; activeC] (perResource lower clock0) (seeded 5) world0 =
      Returns s' w' /\
    latestFailedRollouts s' = latestFailedRollouts (seeded 5).
Proof.
  refine (pass_without_newer_failure_keeps_index lower clock0
            [failedB1; cancelledA; activeC] (seeded 5) world0 _).
  intros d r Hd Hf Hr.
  repeat (apply elem_of_cons in Hd as [-> | Hd]);
    first [ by apply elem_of_nil in Hd
          | discriminate Hf
          | vm_compute in Hr; injection Hr as <-; vm_compute; discriminate ].
Defined.

Lemma pass_records_latest_generation_witness :
  exists s' w' r',
    forRange [failedB2; failedB1; completeD] (perResource lower clock0) (seeded 1) world0 =
      Returns s' w' /\
    latestFailedRollouts s' !! "ns/b" = Some r' /\
    generation r' = 2 /\
    1 <= generation r'.
Proof.
  exact (pass_records_latest_generation lower clock0 [failedB2; failedB1; completeD]
           (seeded 1) world0 "ns/b" (mkFailedRollout 200 1) eq_refl).
Defined.

Lemma duplicate_failure_moves_index_once_witness :
  exists s1 s2,
    forRange [failedB2] (perResource lower clock0) (seeded 1) world0 = Returns s1 world0 /\
    forRange [failedB2; failedB2] (perResource lower clock0) (seeded 1) world0 =
      Returns s2 world0 /\
    latestFailedRollouts s2 = latestFailedRollouts s1 /\
    failed s2 = 2.
Proof.
  exact (duplicate_failure_moves_index_once lower clock0 failedB2 (seeded 1) world0
           eq_refl eq_refl eq_refl eq_refl).
Defined.

Lemma counter_samples_ignore_list_order_witness :
  exists w1 w1',
    run [cancelledA; activeC] = Returns tt w1 /\
    run [activeC; cancelledA] = Returns tt w1' /\
    filter (fun m => Prom.desc m = completeRolloutCountDesc) (sentSince world0 w1) =
    filter (fun m => Prom.desc m = completeRolloutCountDesc) (sentSince world0 w1').
Proof.
  refine (counter_samples_ignore_list_order lower clock0
            (mkCollector (listerOf [cancelledA; activeC] None))
            (mkCollector (listerOf [activeC; cancelledA] None))
            world0 world0 [cancelledA; activeC] [activeC; cancelledA]
            eq_refl eq_refl _).
  apply perm_swap.
Defined.

Lemma every_named_resource_is_accounted_witness :
  exists w' a f k,
    run [cancelledA; failedB1; activeC; unnamed; runningE; completeD] = Returns tt w' /\
    filter (fun m => Prom.desc m = completeRolloutCountDesc) (sentSince world0 w') =
      [Prom.mkMetric completeRolloutCountDesc Prom.GaugeValue a ["available"];
       Prom.mkMetric completeRolloutCountDesc Prom.GaugeValue f ["failed"];
       Prom.mkMetric completeRolloutCountDesc Prom.GaugeValue k ["cancelled"]] /\
    a + f + k +
      Z.of_nat (length (filter (fun m => Prom.desc m = activeRolloutDurationSecondsDesc)
                               (sentSince world0 w'))) = 5.
Proof.
  refine (every_named_resource_is_accounted lower clock0
            (mkCollector (listerOf [cancelledA; failedB1; activeC; unnamed; runningE; completeD] None))
            world0 _ eq_refl _).
  vm_compute. discriminate.
Defined.

Lemma scrape_sends_durations_then_counters_witness :
  exists w',
    run [cancelledA; activeC; runningE] = Returns tt w' /\
    length (sentSince world0 w') = 5%nat /\
    Forall (fun m => Prom.desc m = activeRolloutDurationSecondsDesc)
           (take 2 (sentSince world0 w')) /\
    Forall (fun m => Prom.desc m = completeRolloutCountDesc)
           (drop 2 (sentSince world0 w')) /\
    sent w' = sentSince world0 w' /\
    logged w' = [] /\
    clockReads w' = 2%nat.
Proof.
  exact (scrape_sends_durations_then_counters lower clock0
           (mkCollector (listerOf [cancelledA; activeC; runningE] None))
           world0 [cancelledA; activeC; runningE] eq_refl).
Defined.

End MoreScenarios.
